(** * HubSpot deals pipeline: the deal normalizer and the sync driver

    A shallow embedding of
    - the raw-deal-to-normalized-deal transform registered with
      [HubSpotDealRawPipeline.stream.addTransform] (ingest/hubspotTransforms),
    - the sync driver [syncHubSpotDeals] (scripts/hubspotWorkflow.ts),
    together with the JavaScript primitives both rely on. *)

From Stdlib Require Import ZArith QArith Qabs Qround Ascii String.
From stdpp Require Import gmap strings list fin_maps.

Local Open Scope string_scope.

(** ** JavaScript values and primitives

    Strings are sequences of 8-bit characters; what the primitives below do
    is what their JavaScript namesakes do on strings of characters below
    code 128. *)

Module JS.

(** A value of type [string | null | undefined]: what a lookup in a
    [HubSpotDealProperties] object yields. *)
Inductive JsVal :=
| JUndefined
| JNull
| JStr (s : string).

#[global] Instance JsVal_eq_dec : EqDecision JsVal.
Proof. solve_decision. Defined.

(** [obj[key]]: a key the object does not have reads as [undefined]. *)
Definition get (obj : gmap string JsVal) (key : string) : JsVal :=
  match obj !! key with
  | Some v => v
  | None => JUndefined
  end.

(** [obj[key] = value] on a plain object [{}], for a value that is not an
    object: an own property is created or overwritten, except under the
    key "__proto__".  That key is the accessor inherited from
    [Object.prototype], whose setter ignores such a value: no property is
    created. *)
Definition assign {V : Type} (obj : gmap string V) (key : string) (value : V)
    : gmap string V :=
  if String.eqb key "__proto__" then obj else <[key := value]> obj.

(** Truthiness of a [string | null | undefined]: only a non-empty string. *)
Definition truthy (v : JsVal) : bool :=
  match v with
  | JStr s => negb (String.eqb s "")
  | _ => false
  end.

(** [a || b] on such values. *)
Definition or_else (a b : JsVal) : JsVal := if truthy a then a else b.

(** [v || d] where [d] is a string: the result is a string. *)
Definition or_str (v : JsVal) (d : string) : string :=
  match v with
  | JStr s => if String.eqb s "" then d else s
  | _ => d
  end.

(** [v || undefined], read at type [string | undefined]: [None] is
    [undefined], and the empty string never comes out. *)
Definition or_undefined (v : JsVal) : option string :=
  match v with
  | JStr s => if String.eqb s "" then None else Some s
  | _ => None
  end.

(** [String(value)]. *)
Definition String_of (v : JsVal) : string :=
  match v with
  | JStr s => s
  | JNull => "null"
  | JUndefined => "undefined"
  end.

(** *** Numbers

    A number is [NaN], an infinity, or a finite value.  Finite values are
    kept as the exact rational in lowest terms; the rounding of a decimal
    literal to the nearest binary64 value is not part of the model. *)
Inductive number :=
| NaN
| Infinity (negative : bool)
| Fin (q : Q).

Definition zero : number := Fin 0.

Definition of_Z (z : Z) : number := Fin (inject_Z z).
Definition of_nat (n : nat) : number := of_Z (Z.of_nat n).

(** Truthiness of a number: [NaN], [0] and [-0] are falsy. *)
Definition num_truthy (n : number) : bool :=
  match n with
  | NaN => false
  | Infinity _ => true
  | Fin q => negb (Qeq_bool q 0)
  end.

(** [a || b] on numbers. *)
Definition num_or (a b : number) : number := if num_truthy a then a else b.

(** [a - b], [Math.abs(a)], [a / d] for a positive integer constant [d]
    and [Math.ceil(a)]. *)
Definition num_sub (a b : number) : number :=
  match a, b with
  | NaN, _ | _, NaN => NaN
  | Infinity x, Infinity y => if Bool.eqb x y then NaN else Infinity x
  | Infinity x, Fin _ => Infinity x
  | Fin _, Infinity y => Infinity (negb y)
  | Fin p, Fin q => Fin (Qred (p - q))
  end.

Definition Math_abs (a : number) : number :=
  match a with
  | NaN => NaN
  | Infinity _ => Infinity false
  | Fin q => Fin (Qabs q)
  end.

Definition num_div_const (a : number) (d : positive) : number :=
  match a with
  | Fin q => Fin (Qred (q / inject_Z (Zpos d)))
  | _ => a
  end.

Definition Math_ceil (a : number) : number :=
  match a with
  | Fin q => Fin (inject_Z (Qceiling q))
  | _ => a
  end.

(** *** Character classes *)

Definition code (c : ascii) : N := N_of_ascii c.

Definition is_digit (c : ascii) : bool := ((48 <=? code c) && (code c <=? 57))%N.

Definition digit_value (c : ascii) : N := (code c - 48)%N.

(** White space and line terminators below code 128: TAB, LF, VT, FF, CR
    and SP. *)
Definition is_space (c : ascii) : bool :=
  ((9 <=? code c) && (code c <=? 13) || (code c =? 32))%N.

Definition is_upper (c : ascii) : bool := ((65 <=? code c) && (code c <=? 90))%N.

Definition lower_char (c : ascii) : ascii :=
  if is_upper c then ascii_of_N (code c + 32) else c.

(** [s.toLowerCase()]: the letters A to Z are mapped to a to z, every
    other character is left as it is. *)
Fixpoint toLowerCase (s : string) : string :=
  match s with
  | EmptyString => EmptyString
  | String c s' => String (lower_char c) (toLowerCase s')
  end.

(** [s.includes(t)]: [t] occurs in [s] as a contiguous substring. *)
Fixpoint includes (s t : string) : bool :=
  String.prefix t s ||
  match s with
  | EmptyString => false
  | String _ s' => includes s' t
  end.

(** *** parseFloat and parseInt *)

Fixpoint trim_start (s : string) : string :=
  match s with
  | String c s' => if is_space c then trim_start s' else s
  | EmptyString => s
  end.

(** The longest run of decimal digits a string starts with, read most
    significant digit first on top of [acc], the number of digits read,
    and the rest of the string. *)
Fixpoint digits (s : string) (acc : N) (count : nat) : N * nat * string :=
  match s with
  | String c s' =>
      if is_digit c then digits s' (acc * 10 + digit_value c)%N (S count)
      else (acc, count, s)
  | EmptyString => (acc, count, s)
  end.

(** An optional sign: [true] for a minus. *)
Definition sign (s : string) : bool * string :=
  match s with
  | String "-" s' => (true, s')
  | String "+" s' => (false, s')
  | _ => (false, s)
  end.

(** The exponent part [e±ddd] when the string starts with a complete one,
    else [0]. *)
Definition exponent (s : string) : Z :=
  match s with
  | String c s' =>
      if (code c =? 101)%N || (code c =? 69)%N then
        let '(neg, s'') := sign s' in
        let '(e, n, _) := digits s'' 0%N 0 in
        match n with
        | O => 0%Z
        | S _ => if neg then (- Z.of_N e)%Z else Z.of_N e
        end
      else 0%Z
  | EmptyString => 0%Z
  end.

Definition signed (neg : bool) (q : Q) : Q := if neg then Qopp q else q.

(** [parseFloat(s)]: leading white space is skipped, then the longest
    prefix that is a decimal literal is read:
    an optional sign followed by [Infinity], by [digits . digits? exp?],
    by [. digits exp?] or by [digits exp?].  Without such a prefix the
    result is [NaN]. *)
Definition parseFloat (s : string) : number :=
  let '(neg, s1) := sign (trim_start s) in
  if String.prefix "Infinity" s1 then Infinity neg
  else
    let '(ip, ni, r1) := digits s1 0%N 0 in
    let '(m, nf, r2) :=
      match r1 with
      | String "." r => let '(m, nf, r2) := digits r ip 0 in (m, nf, r2)
      | _ => (ip, O, r1)
      end in
    match (ni + nf)%nat with
    | O => NaN
    | S _ =>
        let e := (exponent r2 - Z.of_nat nf)%Z in
        Fin (Qred (signed neg (inject_Z (Z.of_N m) * Qpower 10 e)))
    end.

Definition hex_value (c : ascii) : option N :=
  let n := code c in
  if is_digit c then Some (n - 48)%N
  else if ((97 <=? n) && (n <=? 102))%N then Some (n - 87)%N
  else if ((65 <=? n) && (n <=? 70))%N then Some (n - 55)%N
  else None.

Fixpoint hex_digits (s : string) (acc : N) (count : nat) : N * nat :=
  match s with
  | String c s' =>
      match hex_value c with
      | Some d => hex_digits s' (acc * 16 + d)%N (S count)
      | None => (acc, count)
      end
  | EmptyString => (acc, count)
  end.

(** [parseInt(s)] without a radix: leading white space is skipped, an
    optional sign is read, a [0x] or [0X] prefix selects base 16, and the
    longest run of digits of the base is the value; [NaN] without one. *)
Definition parseInt (s : string) : number :=
  let '(neg, s1) := sign (trim_start s) in
  let '(m, n) :=
    match s1 with
    | String "0" (String x s2) =>
        if (code x =? 120)%N || (code x =? 88)%N then hex_digits s2 0%N 0
        else let '(m, n, _) := digits s1 0%N 0 in (m, n)
    | _ => let '(m, n, _) := digits s1 0%N 0 in (m, n)
    end in
  match n with
  | O => NaN
  | S _ => Fin (signed neg (inject_Z (Z.of_N m)))
  end.

(** *** Dates

    A [Date] object holds a time value in milliseconds since the epoch, or
    is an Invalid Date. *)
Inductive Date :=
| InvalidDate
| TimeValue (t : Z).

(** A [Date] is an object, and every object is truthy, an Invalid Date
    too. *)
Definition date_truthy (d : Date) : bool := true.

(** [d.getTime()]. *)
Definition getTime (d : Date) : number :=
  match d with
  | InvalidDate => NaN
  | TimeValue t => of_Z t
  end.

(** What the transform needs from its host: the parser behind
    [new Date(string)], whose accepted formats beyond the ISO one are left
    to the engine ([None]: the string does not parse), and the wall clock,
    of which [clock k] is what the [k]-th [new Date()] of one invocation
    reads. *)
Record Host := {
  Date_parse : string -> option Z;
  clock : nat -> Z
}.

(** [new Date(s)]: never throws; an unparseable string gives an Invalid
    Date. *)
Definition new_Date (h : Host) (s : string) : Date :=
  match Date_parse h s with
  | Some t => TimeValue t
  | None => InvalidDate
  end.

End JS.

(** ** Exceptions and the wall clock

    A computation reads the wall clock, counting its reads, and either
    returns or throws. *)

(** [IngestionError status text] is the driver's
    [new Error(`Moose ingestion error ${status}: ${text}`)]. *)
Inductive Error :=
| TypeError
| Error_ (message : string)
| IngestionError (status : nat) (errorText : string).

Inductive Outcome (A : Type) :=
| Returned (a : A)
| Thrown (e : Error).
Arguments Returned {A} a.
Arguments Thrown {A} e.

Definition M (A : Type) : Type := nat -> Outcome (A * nat).

#[global] Instance M_ret : MRet M := fun A a k => Returned (a, k).
#[global] Instance M_bind : MBind M := fun A B f m k =>
  match m k with
  | Returned (a, k') => f a k'
  | Thrown e => Thrown e
  end.

Definition throw {A} (e : Error) : M A := fun _ => Thrown e.

(** [new Date()]: the current reading of the clock. *)
Definition new_Date_now (h : JS.Host) : M JS.Date :=
  fun k => Returned (JS.TimeValue (JS.clock h k), S k).

(** Reading a member of [o]: a [TypeError] when [o] is [undefined]. *)
Definition member_of {A} (o : option A) : M A :=
  match o with
  | Some a => mret a
  | None => throw TypeError
  end.

(** The result of a computation started with no clock read behind it. *)
Definition run {A} (m : M A) : Outcome A :=
  match m O with
  | Returned (a, _) => Returned a
  | Thrown e => Thrown e
  end.

(** ** Data models (ingest/hubspotModels.ts) *)

Module HubSpotDealAssociations.
Record t := mk {
  contacts : option (list string);
  companies : option (list string)
}.
End HubSpotDealAssociations.

(** A raw deal as it reaches the transform at run time: [None] stands for
    a member that is missing from the object. *)
Module HubSpotDealRaw.
Record t := mk {
  id : option string;
  properties : option (gmap string JS.JsVal);
  createdAt : string;
  updatedAt : string;
  archived : bool;
  associations : option HubSpotDealAssociations.t
}.
End HubSpotDealRaw.

Module HubSpotDeal.
Record t := mk {
  id : option string;
  dealName : string;
  amount : JS.number;
  currency : string;
  stage : string;
  stageLabel : string;
  pipeline : string;
  pipelineLabel : string;
  dealType : option string;
  closeDate : option JS.Date;
  createdAt : JS.Date;
  lastModifiedAt : JS.Date;
  ownerId : option string;
  stageProbability : JS.number;
  forecastAmount : JS.number;
  projectedAmount : JS.number;
  daysToClose : option JS.number;
  isWon : bool;
  isClosed : bool;
  isArchived : bool;
  contactCount : JS.number;
  noteCount : JS.number;
  associatedContacts : list string;
  associatedCompanies : list string;
  customProperties : gmap string JS.JsVal
}.
End HubSpotDeal.

(** ** The transform (ingest/hubspotTransforms): raw deal to normalized deal *)

Import JS.

(** [parseDate]: the helper declared inside the transform.
<<
    const parseDate = (dateStr?: string): Date => {
      if (!dateStr) return new Date();
      try { return new Date(dateStr); } catch { return new Date(); }
    };
>>
    [new Date(dateStr)] never throws, so the [catch] branch is never
    taken. *)
Definition parseDate (h : Host) (dateStr : option string) : M Date :=
  match dateStr with
  | None => new_Date_now h
  | Some s => if String.eqb s "" then new_Date_now h else mret (new_Date h s)
  end.

Definition standardProperties : gset string :=
  list_to_set [
    "dealname"; "amount"; "dealstage"; "pipeline"; "dealtype"; "closedate";
    "createdate"; "hs_lastmodifieddate"; "hubspot_owner_id"; "amount_in_home_currency";
    "hs_deal_stage_probability"; "dealstage_label"; "pipeline_label"; "deal_currency_code";
    "hs_forecast_amount"; "hs_projected_amount"; "num_associated_contacts";
    "num_contacted_notes"; "days_to_close" ].

(** One step of the [Object.entries(props).forEach] loop that fills
    [customProperties]. *)
Definition customProperties_step (key : string) (value : JsVal)
    (customProperties : gmap string JsVal) : gmap string JsVal :=
  if negb (bool_decide (key ∈ standardProperties))
     && negb (bool_decide (value = JUndefined))
     && negb (bool_decide (value = JNull))
  then assign customProperties key value
  else customProperties.

Definition msPerDay : positive := 1000 * 60 * 60 * 24.

Definition transform (h : Host) (rawDeal : HubSpotDealRaw.t) : M HubSpotDeal.t :=
  props ← member_of (HubSpotDealRaw.properties rawDeal);
  let dealName := or_str (get props "dealname") "Untitled Deal" in
  let amount := num_or (parseFloat (or_str (get props "amount") "0")) zero in
  let currency := or_str (get props "deal_currency_code") "USD" in
  let stage := or_str (get props "dealstage") "unknown" in
  let stageLabel := or_str (get props "dealstage_label") stage in
  let pipeline := or_str (get props "pipeline") "default" in
  let pipelineLabel := or_str (get props "pipeline_label") pipeline in
  d1 ← parseDate h (or_undefined (get props "createdate"));
  let createdAt :=
    if date_truthy d1 then d1 else new_Date h (HubSpotDealRaw.createdAt rawDeal) in
  d2 ← parseDate h (or_undefined (get props "hs_lastmodifieddate"));
  let lastModifiedAt :=
    if date_truthy d2 then d2 else new_Date h (HubSpotDealRaw.updatedAt rawDeal) in
  closeDate ←
    (if truthy (get props "closedate")
     then d ← parseDate h (or_undefined (get props "closedate")); mret (Some d)
     else mret None);
  let ownerId := get props "hubspot_owner_id" in
  let stageProbability :=
    num_or (parseFloat (or_str (get props "hs_deal_stage_probability") "0")) zero in
  let forecastAmount :=
    num_or (parseFloat
              (or_str (or_else (get props "hs_forecast_amount") (get props "amount")) "0"))
           zero in
  let projectedAmount :=
    num_or (parseFloat
              (or_str (or_else (get props "hs_projected_amount") (get props "amount")) "0"))
           zero in
  let isWon :=
    includes (toLowerCase stage) "won" || includes (toLowerCase stage) "closed" in
  let isClosed :=
    isWon || includes (toLowerCase stage) "lost" || includes (toLowerCase stage) "closed" in
  let daysToClose :=
    match closeDate with
    | Some cd =>
        if isClosed then
          let diffTime := Math_abs (num_sub (getTime cd) (getTime createdAt)) in
          Some (Math_ceil (num_div_const diffTime msPerDay))
        else None
    | None => None
    end in
  assoc ← member_of (HubSpotDealRaw.associations rawDeal);
  let associatedContacts := default [] (HubSpotDealAssociations.contacts assoc) in
  let associatedCompanies := default [] (HubSpotDealAssociations.companies assoc) in
  let contactCount :=
    num_or (parseInt (or_str (get props "num_associated_contacts") "0"))
           (of_nat (List.length associatedContacts)) in
  let noteCount :=
    num_or (parseInt (or_str (get props "num_contacted_notes") "0")) zero in
  let customProperties := map_fold customProperties_step ∅ props in
  mret {|
    HubSpotDeal.id := HubSpotDealRaw.id rawDeal;
    HubSpotDeal.dealName := dealName;
    HubSpotDeal.amount := amount;
    HubSpotDeal.currency := currency;
    HubSpotDeal.stage := stage;
    HubSpotDeal.stageLabel := stageLabel;
    HubSpotDeal.pipeline := pipeline;
    HubSpotDeal.pipelineLabel := pipelineLabel;
    HubSpotDeal.dealType := or_undefined (get props "dealtype");
    HubSpotDeal.closeDate := closeDate;
    HubSpotDeal.createdAt := createdAt;
    HubSpotDeal.lastModifiedAt := lastModifiedAt;
    HubSpotDeal.ownerId := or_undefined ownerId;
    HubSpotDeal.stageProbability := stageProbability;
    HubSpotDeal.forecastAmount := forecastAmount;
    HubSpotDeal.projectedAmount := projectedAmount;
    HubSpotDeal.daysToClose := daysToClose;
    HubSpotDeal.isWon := isWon;
    HubSpotDeal.isClosed := isClosed;
    HubSpotDeal.isArchived := HubSpotDealRaw.archived rawDeal;
    HubSpotDeal.contactCount := contactCount;
    HubSpotDeal.noteCount := noteCount;
    HubSpotDeal.associatedContacts := associatedContacts;
    HubSpotDeal.associatedCompanies := associatedCompanies;
    HubSpotDeal.customProperties := customProperties
  |}.

(** What one run of the transform on a record gives. *)
Definition normalize (h : Host) (rawDeal : HubSpotDealRaw.t) : Outcome HubSpotDeal.t :=
  run (transform h rawDeal).

(** ** A host for worked examples

    Its date parser reads the date-time format of ECMAScript in full,
    [YYYY-MM-DDTHH:mm:ss.sssZ], which is what HubSpot sends, and nothing
    else. *)

Module ExampleHost.

Fixpoint take_num (n : nat) (acc : Z) (s : string) : option (Z * string) :=
  match n with
  | O => Some (acc, s)
  | S n' =>
      match s with
      | String c s' =>
          if is_digit c then take_num n' (acc * 10 + Z.of_N (digit_value c))%Z s'
          else None
      | EmptyString => None
      end
  end.

Definition expect (c : ascii) (s : string) : option string :=
  match s with
  | String c' s' => if Ascii.eqb c c' then Some s' else None
  | EmptyString => None
  end.

Definition is_leap (y : Z) : bool :=
  ((y mod 4 =? 0) && negb (y mod 100 =? 0) || (y mod 400 =? 0))%Z.

Definition days_in_month (y m : Z) : Z :=
  if (m =? 2)%Z then (if is_leap y then 29 else 28)%Z
  else if ((m =? 4) || (m =? 6) || (m =? 9) || (m =? 11))%Z then 30%Z
  else 31%Z.

(** Days from 1970-01-01 to the given civil date. *)
Definition days_from_civil (y m d : Z) : Z :=
  let y' := (if m <=? 2 then y - 1 else y)%Z in
  let era := (y' / 400)%Z in
  let yoe := (y' - era * 400)%Z in
  let mp := (if m <=? 2 then m + 9 else m - 3)%Z in
  let doy := ((153 * mp + 2) / 5 + d - 1)%Z in
  let doe := (yoe * 365 + yoe / 4 - yoe / 100 + doy)%Z in
  (era * 146097 + doe - 719468)%Z.

Definition in_range (lo x hi : Z) : bool := ((lo <=? x) && (x <=? hi))%Z.

Definition iso_utc_parse (s : string) : option Z :=
  '(y, s) ← take_num 4 0 s;
  s ← expect "-" s;
  '(mo, s) ← take_num 2 0 s;
  s ← expect "-" s;
  '(d, s) ← take_num 2 0 s;
  s ← expect "T" s;
  '(hh, s) ← take_num 2 0 s;
  s ← expect ":" s;
  '(mi, s) ← take_num 2 0 s;
  s ← expect ":" s;
  '(ss, s) ← take_num 2 0 s;
  s ← expect "." s;
  '(ms, s) ← take_num 3 0 s;
  s ← expect "Z" s;
  if String.eqb s ""
     && in_range 1 mo 12 && in_range 1 d (days_in_month y mo)
     && in_range 0 hh 23 && in_range 0 mi 59 && in_range 0 ss 59
  then Some ((((days_from_civil y mo d * 24 + hh) * 60 + mi) * 60 + ss) * 1000 + ms)%Z
  else None.

(** A host whose clock starts at [t0] and advances by one millisecond
    with every read. *)
Definition at_time (t0 : Z) : Host :=
  {| Date_parse := iso_utc_parse; clock := fun k => (t0 + Z.of_nat k)%Z |}.

End ExampleHost.

(** ** Sample records *)

Module Samples.

Definition host : Host := ExampleHost.at_time 1730000000000.

Definition later : Host := ExampleHost.at_time 1730000600000.

Definition no_associations : HubSpotDealAssociations.t :=
  HubSpotDealAssociations.mk (Some []) (Some []).

Definition raw_deal (id : option string) (props : gmap string JsVal) : HubSpotDealRaw.t :=
  {| HubSpotDealRaw.id := id;
     HubSpotDealRaw.properties := Some props;
     HubSpotDealRaw.createdAt := "2024-01-01T00:00:00.000Z";
     HubSpotDealRaw.updatedAt := "2024-02-01T00:00:00.000Z";
     HubSpotDealRaw.archived := false;
     HubSpotDealRaw.associations := Some no_associations |}.

(** A deal that carries its own dates. *)
Definition dated_props : gmap string JsVal :=
  <["createdate" := JStr "2024-01-05T09:00:00.000Z"]>
    (<["hs_lastmodifieddate" := JStr "2024-01-09T17:30:00.000Z"]>
       (<["dealname" := JStr "Acme renewal"]> ∅)).

(** A deal without date properties. *)
Definition undated_props : gmap string JsVal :=
  <["dealname" := JStr "Acme renewal"]> ∅.

(** A deal whose [createdate] is not a date. *)
Definition misdated_props : gmap string JsVal :=
  <["createdate" := JStr "not a date"]> ∅.

Definition won_props : gmap string JsVal :=
  <["dealstage" := JStr "Closed WON"]> (<["amount" := JStr "n/a"]> ∅).

Definition lost_props : gmap string JsVal :=
  <["dealstage" := JStr "closedlost"]> ∅.

(** An amount, and no forecast of its own. *)
Definition amount_only_props : gmap string JsVal :=
  <["amount" := JStr "100"]> ∅.

(** An amount, and forecasts that are not numbers. *)
Definition bad_forecast_props : gmap string JsVal :=
  <["amount" := JStr "100"]>
    (<["hs_forecast_amount" := JStr "tbd"]>
       (<["hs_projected_amount" := JStr "-"]> ∅)).

End Samples.

(** ** The sync driver (scripts/hubspotWorkflow.ts) *)

(** A deal as the connector's [streamDeals] yields it.  The driver guards
    [properties] with [|| {}] and [archived] with [|| false], so both may
    be missing. *)
Module ConnectorDeal.
Record t := mk {
  id : string;
  properties : option (gmap string JsVal);
  createdAt : string;
  updatedAt : string;
  archived : option bool
}.
End ConnectorDeal.

Module HubSpotDealRawIngestion.
Record t := mk {
  id : string;
  properties : gmap string string;
  createdAt : string;
  updatedAt : string;
  archived : bool;
  contacts : list string;
  companies : list string
}.
End HubSpotDealRawIngestion.

(** One step of the loop over [Object.entries(deal.properties || {})]. *)
Definition cleanProperties_step (key : string) (value : JsVal)
    (cleanProperties : gmap string string) : gmap string string :=
  if negb (bool_decide (value = JNull))
     && negb (bool_decide (value = JUndefined))
     && negb (bool_decide (value = JStr ""))
  then assign cleanProperties key (String_of value)
  else cleanProperties.

Definition cleanProperties (properties : option (gmap string JsVal)) : gmap string string :=
  map_fold cleanProperties_step ∅ (default ∅ properties).

(** [dealData]: the payload built for one deal. *)
Definition dealData (deal : ConnectorDeal.t) : HubSpotDealRawIngestion.t :=
  {| HubSpotDealRawIngestion.id := ConnectorDeal.id deal;
     HubSpotDealRawIngestion.properties := cleanProperties (ConnectorDeal.properties deal);
     HubSpotDealRawIngestion.createdAt := ConnectorDeal.createdAt deal;
     HubSpotDealRawIngestion.updatedAt := ConnectorDeal.updatedAt deal;
     HubSpotDealRawIngestion.archived := default false (ConnectorDeal.archived deal);
     HubSpotDealRawIngestion.contacts := [];
     HubSpotDealRawIngestion.companies := [] |}.

(** What [await fetch(...)] gives for one POST: the promise rejects, or
    there is a response with its [ok] flag, its status and what
    [await response.text()] gives. *)
Inductive FetchResult :=
| Rejected (e : Error)
| Response (ok : bool) (status : nat) (text : Outcome string).

(** The world around one run: the connector (what [connect] does, the
    deals [streamDeals] yields and the failure that ends the stream, if
    any, what [disconnect] does) and the ingestion endpoint, which answers
    the [k]-th POST of the run. *)
Record World := {
  connect : option Error;
  streamDeals : list ConnectorDeal.t;
  streamFailure : option Error;
  disconnect : option Error;
  fetch : nat -> HubSpotDealRawIngestion.t -> FetchResult
}.

Inductive LogLine :=
| LogStarting
| LogStreaming
| LogProgress (dealCount successCount errorCount : nat)
| LogIngestError (id : string) (e : Error)
| LogCompleted
| LogFinalStats (dealCount successCount errorCount : nat)
| LogSyncFailed (e : Error).

(** The counters of [syncHubSpotDeals], the payloads handed to [fetch] so
    far, whatever became of them, and the console. *)
Record SyncState := {
  dealCount : nat;
  successCount : nat;
  errorCount : nat;
  posted : list HubSpotDealRawIngestion.t;
  console : list LogLine
}.

Definition log (l : LogLine) (st : SyncState) : SyncState :=
  {| dealCount := dealCount st; successCount := successCount st;
     errorCount := errorCount st; posted := posted st;
     console := (console st ++ [l])%list |}.

(** The body of the [try] for one deal, after [dealData] is built: the
    POST, then either the error that sends control to the [catch], or
    nothing. *)
Definition forward (w : World) (k : nat) (data : HubSpotDealRawIngestion.t) : option Error :=
  match fetch w k data with
  | Rejected e => Some e
  | Response true _ _ => None
  | Response false status (Returned errorText) => Some (IngestionError status errorText)
  | Response false status (Thrown e) => Some e
  end.

(** One iteration of the [for await] loop. *)
Definition process_deal (w : World) (st : SyncState) (deal : ConnectorDeal.t) : SyncState :=
  let dealCount' := S (dealCount st) in
  let data := dealData deal in
  let posted' := (posted st ++ [data])%list in
  match forward w (List.length (posted st)) data with
  | None =>
      let st' := {| dealCount := dealCount'; successCount := S (successCount st);
                    errorCount := errorCount st; posted := posted';
                    console := console st |} in
      if (dealCount' mod 50 =? 0)%nat
      then log (LogProgress dealCount' (S (successCount st)) (errorCount st)) st'
      else st'
  | Some e =>
      log (LogIngestError (ConnectorDeal.id deal) e)
          {| dealCount := dealCount'; successCount := successCount st;
             errorCount := S (errorCount st); posted := posted';
             console := console st |}
  end.

(** The whole loop over the deals the stream yields. *)
Definition stream_loop (w : World) (st : SyncState) (deals : list ConnectorDeal.t) : SyncState :=
  foldl (process_deal w) st deals.

Definition initial (console : list LogLine) : SyncState :=
  {| dealCount := 0; successCount := 0; errorCount := 0; posted := []; console := console |}.

(** The outer [catch]: log and rethrow. *)
Definition sync_failed (e : Error) (st : SyncState) : Outcome unit * SyncState :=
  (Thrown e, log (LogSyncFailed e) st).

(** [syncHubSpotDeals()], given the value of [HUBSPOT_TOKEN].  Creating
    the connector and [initialize] with a token and the fixed rate limit
    do no I/O and leave no trace in the state. *)
Definition syncHubSpotDeals (token : JsVal) (w : World) : Outcome unit * SyncState :=
  if negb (truthy token)
  then (Thrown (Error_ "HUBSPOT_TOKEN environment variable is required"), initial [])
  else
    let st := initial [LogStarting] in
    match connect w with
    | Some e => sync_failed e st
    | None =>
        let st := stream_loop w (log LogStreaming st) (streamDeals w) in
        match streamFailure w with
        | Some e => sync_failed e st
        | None =>
            match disconnect w with
            | Some e => sync_failed e st
            | None =>
                let st := log LogCompleted st in
                (Returned tt,
                 log (LogFinalStats (dealCount st) (successCount st) (errorCount st)) st)
            end
        end
    end.


(** A run over three deals in which the endpoint refuses the second. *)
Module SyncSamples.

Definition deal (id : string) (props : gmap string JsVal) : ConnectorDeal.t :=
  {| ConnectorDeal.id := id;
     ConnectorDeal.properties := Some props;
     ConnectorDeal.createdAt := "2024-01-01T00:00:00.000Z";
     ConnectorDeal.updatedAt := "2024-02-01T00:00:00.000Z";
     ConnectorDeal.archived := None |}.

Definition sparse_props : gmap string JsVal :=
  <["dealname" := JStr "Acme renewal"]>
    (<["amount" := JNull]>
       (<["dealtype" := JStr ""]> (<["__proto__" := JStr "polluted"]> ∅))).

Definition deals : list ConnectorDeal.t :=
  [deal "1" sparse_props; deal "2" ∅; deal "3" Samples.won_props].

Definition world : World :=
  {| connect := None;
     streamDeals := deals;
     streamFailure := None;
     disconnect := None;
     fetch := fun k _ =>
       if (k =? 1)%nat then Response false 500 (Returned "busy")
       else Response true 200 (Returned "") |}.

End SyncSamples.

(** ** The sync task (scripts/hubspotWorkflow.ts) *)

(** [Math.round(a)]: the nearest integer, halves upwards. *)
Definition Math_round (a : number) : number :=
  match a with
  | Fin q => Fin (inject_Z (Qfloor (q + (1 # 2))))
  | _ => a
  end.

Inductive TaskLine :=
| TaskStarting
| TaskCompleted (duration : number)
| TaskFailed (e : Error).

(** [syncHubSpotDealsTask.run()], given the value of [HUBSPOT_TOKEN] and
    what [Date.now()] reads before and after the sync: its outcome, its own
    console lines, and the state the sync ended in when it was run. *)
Definition syncHubSpotDealsTask_run (token : JsVal) (w : World) (before after : Z)
    : Outcome unit * list TaskLine * option SyncState :=
  if negb (truthy token)
  then (Thrown (Error_ "HUBSPOT_TOKEN environment variable is required"),
        [TaskStarting], None)
  else
    let startTime := of_Z before in
    match syncHubSpotDeals token w with
    | (Returned _, st) =>
        let duration := Math_round (num_div_const (num_sub (of_Z after) startTime) 1000) in
        (Returned tt, [TaskStarting; TaskCompleted duration], Some st)
    | (Thrown error, st) =>
        (Thrown error, [TaskStarting; TaskFailed error], Some st)
    end.

(** ** The workflow trigger API (apis/hubspotWorkflowTrigger) *)

Module WorkflowTrigger.

Record WorkflowTriggerParams := {
  workflowName : option string;
  force : option bool;
  waitForCompletion : option bool;
  timeoutSeconds : option number
}.

Inductive Status := started | completed | failed | timeout.

Module Response.
Record t := mk {
  success : bool;
  workflowName : string;
  executionId : string;
  status : Status;
  message : string;
  startTime : string;
  endTime : option string;
  duration : option number;
  error : option string
}.
End Response.

(** A thrown value: an [Error] with its message, or something that is
    not an [Error]. *)
Inductive Exn :=
| ErrorObject (message : string)
| NotAnError.

(** [error instanceof Error ? error.message : 'Unknown error']. *)
Definition message_of (e : Exn) : string :=
  match e with
  | ErrorObject m => m
  | NotAnError => "Unknown error"
  end.

(** How the promise [client.workflow.execute] returns settles. *)
Inductive Settlement :=
| Resolved (status : nat) (body : string)
| Rejected (e : Exn)
| Pending.

(** What the handler meets: the environment variable, the two readings of
    [new Date().toISOString()] (on entry and on the way out), the text of
    [Date.now()] and of the random suffix, how numbers print inside
    template literals, the engine behind [new Date(string)], what
    [client.workflow.execute] does (it throws, or returns a promise), and
    whether the timer of the race fires before that promise settles. *)
Record Env := {
  HUBSPOT_TOKEN : JsVal;
  isoStart : string;
  isoEnd : string;
  Date_now : string;
  random_suffix : string;
  Number_toString : number -> string;
  engine : Host;
  execute : string -> Exn + Settlement;
  timer_first : bool
}.

Definition timeout_message (env : Env) (timeoutSeconds : number) : string :=
  "Workflow execution timed out after " +:+ Number_toString env timeoutSeconds +:+ " seconds".

(** [Promise.race([workflowPromise, timeoutPromise])]: the value the
    workflow resolved with, or the rejection that gets to the [catch]. *)
Definition race (env : Env) (workflowPromise : Settlement) (timeoutSeconds : number)
    : (nat * string) + Exn :=
  match workflowPromise with
  | Pending => inr (ErrorObject (timeout_message env timeoutSeconds))
  | Resolved status body =>
      if timer_first env then inr (ErrorObject (timeout_message env timeoutSeconds))
      else inl (status, body)
  | Rejected e =>
      if timer_first env then inr (ErrorObject (timeout_message env timeoutSeconds))
      else inr e
  end.

(** [Math.round((new Date(endTime).getTime() - new Date(startTime).getTime()) / 1000)]. *)
Definition duration_between (env : Env) (startTime endTime : string) : number :=
  Math_round (num_div_const
    (num_sub (getTime (new_Date (engine env) endTime))
             (getTime (new_Date (engine env) startTime))) 1000).

(** The handler of [HubSpotWorkflowTriggerApi]: its response, and the
    names [client.workflow.execute] was called with. *)
Definition handler (params : WorkflowTriggerParams) (env : Env)
    : Response.t * list string :=
  let workflowName := default "hubspotDataSync" (workflowName params) in
  let force := default false (force params) in
  let waitForCompletion := default false (waitForCompletion params) in
  let timeoutSeconds := default (of_nat 300) (timeoutSeconds params) in
  let startTime := isoStart env in
  let executionId := workflowName +:+ "-" +:+ Date_now env +:+ "-" +:+ random_suffix env in
  let trigger_failed (error : Exn) :=
    let endTime := isoEnd env in
    {| Response.success := false;
       Response.workflowName := workflowName;
       Response.executionId := executionId;
       Response.status := failed;
       Response.message := "Failed to trigger workflow: " +:+ message_of error;
       Response.startTime := startTime;
       Response.endTime := Some endTime;
       Response.duration := Some (duration_between env startTime endTime);
       Response.error := Some (message_of error) |} in
  if negb (truthy (HUBSPOT_TOKEN env))
  then (trigger_failed
          (ErrorObject "HUBSPOT_TOKEN environment variable is required for workflow execution"),
        [])
  else if negb (String.eqb workflowName "hubspotDataSync")
  then (trigger_failed
          (ErrorObject ("Unknown workflow: " +:+ workflowName
                        +:+ ". Available workflows: hubspotDataSync")),
        [])
  else
    match execute env workflowName with
    | inl error => (trigger_failed error, [workflowName])
    | inr workflowPromise =>
        if waitForCompletion then
          let endTime := isoEnd env in
          let duration := duration_between env startTime endTime in
          match race env workflowPromise timeoutSeconds with
          | inl result =>
              ({| Response.success := true;
                  Response.workflowName := workflowName;
                  Response.executionId := executionId;
                  Response.status := completed;
                  Response.message := "Workflow " +:+ workflowName +:+ " completed successfully";
                  Response.startTime := startTime;
                  Response.endTime := Some endTime;
                  Response.duration := Some duration;
                  Response.error := None |},
               [workflowName])
          | inr error =>
              match error with
              | ErrorObject m =>
                  if includes m "timed out" then
                    ({| Response.success := false;
                        Response.workflowName := workflowName;
                        Response.executionId := executionId;
                        Response.status := timeout;
                        Response.message := timeout_message env timeoutSeconds;
                        Response.startTime := startTime;
                        Response.endTime := Some endTime;
                        Response.duration := Some duration;
                        Response.error := Some m |},
                     [workflowName])
                  else
                    ({| Response.success := false;
                        Response.workflowName := workflowName;
                        Response.executionId := executionId;
                        Response.status := failed;
                        Response.message := "Workflow execution failed: " +:+ m;
                        Response.startTime := startTime;
                        Response.endTime := Some endTime;
                        Response.duration := Some duration;
                        Response.error := Some m |},
                     [workflowName])
              | NotAnError =>
                  ({| Response.success := false;
                      Response.workflowName := workflowName;
                      Response.executionId := executionId;
                      Response.status := failed;
                      Response.message := "Workflow execution failed: Unknown error";
                      Response.startTime := startTime;
                      Response.endTime := Some endTime;
                      Response.duration := Some duration;
                      Response.error := Some "Unknown error" |},
                   [workflowName])
              end
          end
        else
          ({| Response.success := true;
              Response.workflowName := workflowName;
              Response.executionId := executionId;
              Response.status := started;
              Response.message :=
                "Workflow " +:+ workflowName +:+ " started successfully in background";
              Response.startTime := startTime;
              Response.endTime := None;
              Response.duration := None;
              Response.error := None |},
           [workflowName])
    end.

End WorkflowTrigger.

(** More sample records: a won deal with both dates and a custom
    property, a deal whose close date is not a date, and an environment
    for the trigger in which the workflow fails with a message of its
    own. *)
Module MoreSamples.

Definition closed_props : gmap string JsVal :=
  <["createdate" := JStr "2024-01-01T00:00:00.000Z"]>
    (<["closedate" := JStr "2024-03-01T12:30:15.250Z"]>
       (<["dealstage" := JStr "closedwon"]>
          (<["num_associated_contacts" := JStr "3"]>
             (<["industry" := JStr "retail"]>
                (<["region" := JNull]> (<["__proto__" := JStr "polluted"]> ∅)))))).

Definition bad_close_props : gmap string JsVal :=
  <["closedate" := JStr "soon"]> (<["dealstage" := JStr "Contract lost"]> ∅).

Definition with_contacts : HubSpotDealAssociations.t :=
  HubSpotDealAssociations.mk (Some ["c1"; "c2"]) None.

Definition raw_with_contacts (props : gmap string JsVal) : HubSpotDealRaw.t :=
  {| HubSpotDealRaw.id := Some "77";
     HubSpotDealRaw.properties := Some props;
     HubSpotDealRaw.createdAt := "2024-01-01T00:00:00.000Z";
     HubSpotDealRaw.updatedAt := "2024-02-01T00:00:00.000Z";
     HubSpotDealRaw.archived := false;
     HubSpotDealRaw.associations := Some with_contacts |}.

Definition failing_world (e : Error) : World :=
  {| connect := None;
     streamDeals := SyncSamples.deals;
     streamFailure := Some e;
     disconnect := None;
     fetch := fetch SyncSamples.world |}.

Definition unplugged_world (e : Error) : World :=
  {| connect := None;
     streamDeals := SyncSamples.deals;
     streamFailure := None;
     disconnect := Some e;
     fetch := fetch SyncSamples.world |}.

End MoreSamples.

(** ** Vocabulary of the statements *)

(** The date [parseDate] yields at the [k]-th clock read for a property
    value [v] passed as [v || undefined]. *)
Definition date_of (h : Host) (v : JsVal) (k : nat) : Date :=
  match or_undefined v with
  | Some s => new_Date h s
  | None => TimeValue (clock h k)
  end.


(** A property has no value: the key is absent, or holds [undefined],
    [null] or the empty string. *)
Definition no_value (props : gmap string JsVal) (key : string) : Prop :=
  props !! key = None ∨ props !! key = Some JUndefined
  ∨ props !! key = Some JNull ∨ props !! key = Some (JStr "").

(** A string contains "won", whatever the case of its three letters. *)
Definition won_ignoring_case (s : string) : Prop :=
  ∃ pre w o n post,
    s = pre +:+ String w (String o (String n post))
    ∧ (w = "w" ∨ w = "W")%char ∧ (o = "o" ∨ o = "O")%char ∧ (n = "n" ∨ n = "N")%char.

(** A forwarding failure, read off the endpoint's answer alone: the
    request is rejected, or the response is not ok. *)
Definition fetch_failed (r : FetchResult) : bool :=
  match r with
  | Rejected _ => true
  | Response ok _ _ => negb ok
  end.

(** How many of the deals, POSTed from the [k]-th POST of the run on, meet
    a forwarding failure. *)
Fixpoint failures (w : World) (k : nat) (deals : list ConnectorDeal.t) : nat :=
  match deals with
  | [] => 0
  | deal :: rest =>
      if fetch_failed (fetch w k (dealData deal))
      then S (failures w (S k) rest)
      else failures w (S k) rest
  end.

(** The record the transform builds from the properties [props] and the
    associations [assoc] of [raw], with the dates [parseDate] yields. *)
Definition normalized (h : Host) (raw : HubSpotDealRaw.t)
    (props : gmap string JsVal) (assoc : HubSpotDealAssociations.t) : HubSpotDeal.t :=
  let stage := or_str (get props "dealstage") "unknown" in
  let pipeline := or_str (get props "pipeline") "default" in
  let createdAt := date_of h (get props "createdate") 0 in
  let closeDate :=
    if truthy (get props "closedate")
    then Some (date_of h (get props "closedate") 0) else None in
  let isWon :=
    includes (toLowerCase stage) "won" || includes (toLowerCase stage) "closed" in
  let isClosed :=
    isWon || includes (toLowerCase stage) "lost" || includes (toLowerCase stage) "closed" in
  let associatedContacts := default [] (HubSpotDealAssociations.contacts assoc) in
  {| HubSpotDeal.id := HubSpotDealRaw.id raw;
     HubSpotDeal.dealName := or_str (get props "dealname") "Untitled Deal";
     HubSpotDeal.amount := num_or (parseFloat (or_str (get props "amount") "0")) zero;
     HubSpotDeal.currency := or_str (get props "deal_currency_code") "USD";
     HubSpotDeal.stage := stage;
     HubSpotDeal.stageLabel := or_str (get props "dealstage_label") stage;
     HubSpotDeal.pipeline := pipeline;
     HubSpotDeal.pipelineLabel := or_str (get props "pipeline_label") pipeline;
     HubSpotDeal.dealType := or_undefined (get props "dealtype");
     HubSpotDeal.closeDate := closeDate;
     HubSpotDeal.createdAt := createdAt;
     HubSpotDeal.lastModifiedAt :=
       date_of h (get props "hs_lastmodifieddate")
               (if truthy (get props "createdate") then 0 else 1);
     HubSpotDeal.ownerId := or_undefined (get props "hubspot_owner_id");
     HubSpotDeal.stageProbability :=
       num_or (parseFloat (or_str (get props "hs_deal_stage_probability") "0")) zero;
     HubSpotDeal.forecastAmount :=
       num_or (parseFloat
         (or_str (or_else (get props "hs_forecast_amount") (get props "amount")) "0")) zero;
     HubSpotDeal.projectedAmount :=
       num_or (parseFloat
         (or_str (or_else (get props "hs_projected_amount") (get props "amount")) "0")) zero;
     HubSpotDeal.daysToClose :=
       match closeDate with
       | Some cd =>
           if isClosed
           then Some (Math_ceil (num_div_const
                        (Math_abs (num_sub (getTime cd) (getTime createdAt))) msPerDay))
           else None
       | None => None
       end;
     HubSpotDeal.isWon := isWon;
     HubSpotDeal.isClosed := isClosed;
     HubSpotDeal.isArchived := HubSpotDealRaw.archived raw;
     HubSpotDeal.contactCount :=
       num_or (parseInt (or_str (get props "num_associated_contacts") "0"))
              (of_nat (List.length associatedContacts));
     HubSpotDeal.noteCount :=
       num_or (parseInt (or_str (get props "num_contacted_notes") "0")) zero;
     HubSpotDeal.associatedContacts := associatedContacts;
     HubSpotDeal.associatedCompanies := default [] (HubSpotDealAssociations.companies assoc);
     HubSpotDeal.customProperties := map_fold customProperties_step ∅ props |}.

Definition is_ingest_error (l : LogLine) : bool :=
  match l with
  | LogIngestError _ _ => true
  | _ => false
  end.

Definition is_final_stats (l : LogLine) : bool :=
  match l with
  | LogFinalStats _ _ _ => true
  | _ => false
  end.

(** A raw deal carries the members of a payload: it has the payload's id,
    its properties (each one a string), its archived flag and its two
    lists of associations. *)
Definition carries (raw : HubSpotDealRaw.t) (data : HubSpotDealRawIngestion.t) : Prop :=
  HubSpotDealRaw.id raw = Some (HubSpotDealRawIngestion.id data)
  ∧ HubSpotDealRaw.properties raw = Some (JStr <$> HubSpotDealRawIngestion.properties data)
  ∧ HubSpotDealRaw.archived raw = HubSpotDealRawIngestion.archived data
  ∧ HubSpotDealRaw.associations raw
    = Some {| HubSpotDealAssociations.contacts := Some (HubSpotDealRawIngestion.contacts data);
              HubSpotDealAssociations.companies :=
                Some (HubSpotDealRawIngestion.companies data) |}.

(** Time values a [Date] can hold, at most 8.64e15 ms from the epoch, and
    less than 2^53 ms apart: their difference is then computed exactly,
    and its quotient by the milliseconds of a day, though rounded, has the
    ceiling of the exact quotient. *)
Definition exact_gap (t1 t2 : Z) : Prop :=
  (Z.abs t1 ≤ 8640000000000000 ∧ Z.abs t2 ≤ 8640000000000000
   ∧ Z.abs (t2 - t1) < 2 ^ 53)%Z.

(** ** The example host at work *)

Example iso_utc_parse_epoch :
  ExampleHost.iso_utc_parse "1970-01-01T00:00:00.000Z" = Some 0%Z.
Proof. reflexivity. Qed.

Example iso_utc_parse_2024 :
  ExampleHost.iso_utc_parse "2024-03-01T12:30:15.250Z" = Some 1709296215250%Z.
Proof. reflexivity. Qed.

Example iso_utc_parse_garbage :
  ExampleHost.iso_utc_parse "not a date" = None.
Proof. reflexivity. Qed.

(** ** The transform: what it returns and when it throws *)

Lemma parseDate_date_of (h : Host) (v : JsVal) (k : nat) :
  ∃ k', parseDate h (or_undefined v) k = Returned (date_of h v k, k')
        ∧ k' = if truthy v then k else S k.
Proof.
  unfold date_of, parseDate, or_undefined, truthy.
  destruct v as [| |s]; try (eexists; split; reflexivity).
  destruct (String.eqb s "") eqn:E; simpl; [eexists; split; reflexivity|].
  rewrite E. eexists; split; reflexivity.
Qed.

Ltac run_transform Hp Ha :=
  unfold normalize, run, transform; rewrite Hp, Ha;
  cbv [mbind M_bind mret M_ret member_of].

Ltac step_parseDate h v k :=
  let k' := fresh "k" in
  let E := fresh "E" in
  destruct (parseDate_date_of h v k) as (k' & -> & E).

(** With its two member objects in place the transform returns, and the
    fields of the record it returns read as follows. *)
Lemma normalize_returned (h : Host) (raw : HubSpotDealRaw.t)
    (props : gmap string JsVal) (assoc : HubSpotDealAssociations.t) :
  HubSpotDealRaw.properties raw = Some props →
  HubSpotDealRaw.associations raw = Some assoc →
  let stage := or_str (get props "dealstage") "unknown" in
  let won := includes (toLowerCase stage) "won" || includes (toLowerCase stage) "closed" in
  ∃ d, normalize h raw = Returned d
    ∧ HubSpotDeal.id d = HubSpotDealRaw.id raw
    ∧ HubSpotDeal.stage d = stage
    ∧ HubSpotDeal.amount d = num_or (parseFloat (or_str (get props "amount") "0")) zero
    ∧ HubSpotDeal.forecastAmount d =
        num_or (parseFloat
          (or_str (or_else (get props "hs_forecast_amount") (get props "amount")) "0")) zero
    ∧ HubSpotDeal.projectedAmount d =
        num_or (parseFloat
          (or_str (or_else (get props "hs_projected_amount") (get props "amount")) "0")) zero
    ∧ HubSpotDeal.isWon d = won
    ∧ HubSpotDeal.isClosed d =
        won || includes (toLowerCase stage) "lost" || includes (toLowerCase stage) "closed"
    ∧ HubSpotDeal.createdAt d = date_of h (get props "createdate") 0
    ∧ HubSpotDeal.lastModifiedAt d =
        date_of h (get props "hs_lastmodifieddate")
                (if truthy (get props "createdate") then 0 else 1).
Proof.
  intros Hp Ha stage won. run_transform Hp Ha.
  step_parseDate h (get props "createdate") 0.
  step_parseDate h (get props "hs_lastmodifieddate") k. subst k.
  destruct (truthy (get props "closedate")).
  - step_parseDate h (get props "closedate") k0.
    eexists. split; [reflexivity|]. cbn. tauto.
  - eexists. split; [reflexivity|]. cbn. tauto.
Qed.

(** Without one of them it throws a [TypeError]. *)
Lemma normalize_thrown (h : Host) (raw : HubSpotDealRaw.t) :
  HubSpotDealRaw.properties raw = None ∨ HubSpotDealRaw.associations raw = None →
  normalize h raw = Thrown TypeError.
Proof.
  intros H. unfold normalize, run, transform.
  destruct (HubSpotDealRaw.properties raw) as [props|]; [|reflexivity].
  destruct H as [H|H]; [discriminate|]. rewrite H.
  cbv [mbind M_bind mret M_ret member_of].
  step_parseDate h (get props "createdate") 0.
  step_parseDate h (get props "hs_lastmodifieddate") k.
  destruct (truthy (get props "closedate")); [|reflexivity].
  step_parseDate h (get props "closedate") k0. reflexivity.
Qed.

Lemma normalize_inv (h : Host) (raw : HubSpotDealRaw.t) (d : HubSpotDeal.t) :
  normalize h raw = Returned d →
  ∃ props assoc, HubSpotDealRaw.properties raw = Some props
               ∧ HubSpotDealRaw.associations raw = Some assoc.
Proof.
  intros H.
  destruct (HubSpotDealRaw.properties raw) as [props|] eqn:Hp;
    [|rewrite normalize_thrown in H by auto; discriminate].
  destruct (HubSpotDealRaw.associations raw) as [assoc|] eqn:Ha;
    [|rewrite normalize_thrown in H by auto; discriminate].
  eauto.
Qed.

Lemma no_value_falsy (props : gmap string JsVal) (key : string) :
  no_value props key ↔ truthy (get props key) = false.
Proof.
  unfold no_value, get, truthy. split.
  - intros [H|[H|[H|H]]]; rewrite H; reflexivity.
  - destruct (props !! key) as [[| |s]|]; auto.
    destruct s; [auto|discriminate].
Qed.

Lemma get_lookup (props : gmap string JsVal) (key : string) (v : JsVal) :
  props !! key = Some v → get props key = v.
Proof. unfold get. intros ->. reflexivity. Qed.

Lemma falsy_or_str (v : JsVal) (d : string) : truthy v = false → or_str v d = d.
Proof.
  destruct v as [| |s]; try reflexivity. simpl.
  destruct (String.eqb s ""); [reflexivity|discriminate].
Qed.

Lemma falsy_or_else (v w : JsVal) : truthy v = false → or_else v w = w.
Proof. unfold or_else. intros ->. reflexivity. Qed.

Lemma nonempty_or_str (s d : string) : s ≠ "" → or_str (JStr s) d = s.
Proof.
  intros H. simpl. destruct (String.eqb_spec s ""); [contradiction|reflexivity].
Qed.

Lemma nonempty_truthy (s : string) : s ≠ "" → truthy (JStr s) = true.
Proof.
  intros H. simpl. destruct (String.eqb_spec s ""); [contradiction|reflexivity].
Qed.

Lemma includes_nonempty (s t : string) : includes s t = true → t ≠ "" → s ≠ "".
Proof. intros H Ht ->. destruct t; [contradiction|discriminate]. Qed.

Lemma toLowerCase_nonempty (s : string) : toLowerCase s ≠ "" → s ≠ "".
Proof. intros H ->. contradiction. Qed.

(** ** Lowercasing and substrings *)

Lemma toLowerCase_app (a b : string) :
  toLowerCase (a +:+ b) = toLowerCase a +:+ toLowerCase b.
Proof.
  induction a as [|c a IH]; [reflexivity|].
  change (String c a +:+ b) with (String c (a +:+ b)). cbn [toLowerCase].
  rewrite IH. reflexivity.
Qed.

Lemma includes_prefix (s t : string) : String.prefix t s = true → includes s t = true.
Proof. intros H. destruct s; cbn [includes]; rewrite H; reflexivity. Qed.

Lemma includes_app_r (a b t : string) :
  includes b t = true → includes (a +:+ b) t = true.
Proof.
  intros H. induction a as [|c a IH]; [exact H|].
  change (String c a +:+ b) with (String c (a +:+ b)). cbn [includes]. rewrite IH. apply orb_true_r.
Qed.

Lemma won_ignoring_case_includes (s : string) :
  won_ignoring_case s → includes (toLowerCase s) "won" = true.
Proof.
  intros (pre & w & o & n & post & -> & Hw & Ho & Hn).
  rewrite toLowerCase_app. apply includes_app_r, includes_prefix.
  cbn [toLowerCase]. destruct (toLowerCase post);
    destruct Hw as [-> | ->], Ho as [-> | ->], Hn as [-> | ->]; reflexivity.
Qed.

Lemma lower_char_inv (c d : ascii) :
  lower_char c = d → c = d ∨ (is_upper c = true ∧ code d = (code c + 32)%N).
Proof.
  unfold lower_char. destruct (is_upper c) eqn:E; [|auto].
  intros <-. right. split; [reflexivity|].
  unfold code. rewrite N_ascii_embedding; [reflexivity|].
  unfold is_upper, code in E. apply andb_prop in E as [_ E]. apply N.leb_le in E. lia.
Qed.

Lemma lower_char_letter (c : ascii) (lo up : ascii) :
  code lo = (code up + 32)%N →
  lower_char c = lo → c = lo ∨ c = up.
Proof.
  intros Hlu H. apply lower_char_inv in H as [H|[_ H]]; [auto|right].
  rewrite Hlu in H. apply N.add_cancel_r in H.
  unfold code in H. rewrite <- (ascii_N_embedding c), <- (ascii_N_embedding up), H. reflexivity.
Qed.

Lemma prefix_cons (a : ascii) (t s : string) :
  String.prefix (String a t) s = true →
  ∃ s', s = String a s' ∧ String.prefix t s' = true.
Proof.
  destruct s as [|b s']; simpl; [discriminate|].
  destruct (ascii_dec a b) as [->|]; [eauto|discriminate].
Qed.

Lemma includes_won_ignoring_case (s : string) :
  includes (toLowerCase s) "won" = true → won_ignoring_case s.
Proof.
  induction s as [|c s IH]; [discriminate|].
  cbn [toLowerCase includes]. intros H. apply orb_prop in H as [H|H].
  - apply prefix_cons in H as (s1 & E1 & H). apply prefix_cons in H as (s2 & -> & H).
    apply prefix_cons in H as (s3 & -> & _).
    destruct s as [|c2 [|c3 r]]; try discriminate.
    cbn [toLowerCase] in E1. injection E1 as Hw Ho Hn _.
    exists "", c, c2, c3, r. split; [reflexivity|].
    repeat split; eapply lower_char_letter; try eassumption; reflexivity.
  - destruct (IH H) as (pre & w & o & n & post & -> & Hl).
    exists (String c pre), w, o, n, post. split; [reflexivity|exact Hl].
Qed.

(** Containing "won" in any case is containing "won" once lowercased. *)
Lemma won_ignoring_case_iff (s : string) :
  won_ignoring_case s ↔ includes (toLowerCase s) "won" = true.
Proof. split; [apply won_ignoring_case_includes|apply includes_won_ignoring_case]. Qed.

(** ** Claims about the transform *)

(** C1, as stated, fails: a raw deal without [id] is not rejected.  The
    transform returns a normalized deal for it, and that deal has no [id]
    either. *)
Lemma missing_id_is_not_rejected :
  HubSpotDealRaw.id (Samples.raw_deal None Samples.undated_props) = None
  ∧ ∃ d, normalize Samples.host (Samples.raw_deal None Samples.undated_props) = Returned d
       ∧ HubSpotDeal.id d = None.
Proof. split; [reflexivity|]. eexists. split; [vm_compute; reflexivity|reflexivity]. Qed.

(** C1, amended: the transform never looks at [id].  For every raw deal
    whose [properties] and [associations] objects are there, with or
    without an [id] and whatever optional properties are missing, it
    returns a normalized deal (it does not throw), and the [id] of that
    deal is the raw deal's, missing when that one is missing. *)
Theorem transform_returns_and_copies_id (h : Host) (raw : HubSpotDealRaw.t)
    (props : gmap string JsVal) (assoc : HubSpotDealAssociations.t) :
  HubSpotDealRaw.properties raw = Some props →
  HubSpotDealRaw.associations raw = Some assoc →
  ∃ d, normalize h raw = Returned d ∧ HubSpotDeal.id d = HubSpotDealRaw.id raw.
Proof.
  intros Hp Ha.
  destruct (normalize_returned h raw props assoc Hp Ha) as (d & Hd & Hid & _).
  eauto.
Qed.

Lemma transform_returns_and_copies_id_witness :
  ∃ d, normalize Samples.host (Samples.raw_deal (Some "42") ∅) = Returned d
     ∧ HubSpotDeal.id d = Some "42".
Proof.
  apply (transform_returns_and_copies_id Samples.host (Samples.raw_deal (Some "42") ∅)
           ∅ Samples.no_associations); reflexivity.
Defined.

(** C2: the code does not do what the claim says.  For a deal without a
    [createdate] (and without an [hs_lastmodifieddate]) the derived
    [createdAt] and [lastModifiedAt] are readings of the wall clock, not
    the raw deal's own [createdAt] and [updatedAt]; for a [createdate]
    that does not parse, [createdAt] is an Invalid Date. *)
Theorem date_fallback_reads_the_clock :
  let raw := Samples.raw_deal (Some "42") Samples.undated_props in
  let bad := Samples.raw_deal (Some "43") Samples.misdated_props in
  (∃ d, normalize Samples.host raw = Returned d
      ∧ HubSpotDeal.createdAt d = TimeValue (clock Samples.host 0)
      ∧ HubSpotDeal.createdAt d = TimeValue 1730000000000
      ∧ new_Date Samples.host (HubSpotDealRaw.createdAt raw) = TimeValue 1704067200000
      ∧ HubSpotDeal.lastModifiedAt d = TimeValue (clock Samples.host 1)
      ∧ HubSpotDeal.lastModifiedAt d = TimeValue 1730000000001
      ∧ new_Date Samples.host (HubSpotDealRaw.updatedAt raw) = TimeValue 1706745600000)
  ∧ (∃ d, normalize Samples.host bad = Returned d
      ∧ HubSpotDeal.createdAt d = InvalidDate
      ∧ new_Date Samples.host (HubSpotDealRaw.createdAt bad) = TimeValue 1704067200000).
Proof.
  split; eexists; (split; [vm_compute; reflexivity|]); repeat split.
Qed.

(** C3: the code does not do what the claim says.  The same raw deal,
    normalized by the same engine at two readings of the clock, gives two
    different normalized deals. *)
Theorem normalize_depends_on_the_clock :
  let raw := Samples.raw_deal (Some "42") Samples.undated_props in
  Date_parse Samples.host = Date_parse Samples.later
  ∧ normalize Samples.host raw ≠ normalize Samples.later raw.
Proof.
  split; [reflexivity|]. intros H.
  apply (f_equal (fun o => match o with
                           | Returned d => HubSpotDeal.createdAt d
                           | Thrown _ => InvalidDate
                           end)) in H.
  vm_compute in H. discriminate.
Qed.

(** What does hold: a deal that carries both date properties is
    normalized the same way whatever the clock reads. *)
Lemma normalize_dated_ignores_the_clock (h1 h2 : Host) (raw : HubSpotDealRaw.t)
    (props : gmap string JsVal) :
  Date_parse h1 = Date_parse h2 →
  HubSpotDealRaw.properties raw = Some props →
  truthy (get props "createdate") = true →
  truthy (get props "hs_lastmodifieddate") = true →
  normalize h1 raw = normalize h2 raw.
Proof.
  intros HP Hp Hc Hm.
  destruct (HubSpotDealRaw.associations raw) as [assoc|] eqn:Ha;
    [|rewrite !normalize_thrown by auto; reflexivity].
  assert (Hnew : ∀ s, new_Date h1 s = new_Date h2 s)
    by (intros s; unfold new_Date; rewrite HP; reflexivity).
  assert (Hdate : ∀ v, truthy v = true →
            ∃ dt, (∀ k, parseDate h1 (or_undefined v) k = Returned (dt, k))
                ∧ (∀ k, parseDate h2 (or_undefined v) k = Returned (dt, k))).
  { intros v Hv. destruct v as [| |s]; try discriminate. simpl in *.
    destruct (String.eqb s "") eqn:E; [discriminate|].
    exists (new_Date h1 s). split; intros k; simpl; rewrite E; [|rewrite Hnew]; reflexivity. }
  destruct (Hdate _ Hc) as (dc & Ec1 & Ec2).
  destruct (Hdate _ Hm) as (dm & Em1 & Em2).
  unfold normalize, run, transform. rewrite Hp, Ha.
  cbv [mbind M_bind mret M_ret member_of].
  rewrite Ec1, Ec2, Em1, Em2.
  destruct (truthy (get props "closedate")) eqn:Hcl; [|rewrite !Hnew; reflexivity].
  destruct (Hdate _ Hcl) as (dl & El1 & El2).
  rewrite El1, El2, !Hnew. reflexivity.
Qed.

(** [isWon] as the transform computes it: the lowercased stage contains
    "won" or contains "closed". *)
Lemma isWon_tokens (h : Host) (raw : HubSpotDealRaw.t) (d : HubSpotDeal.t) :
  normalize h raw = Returned d →
  HubSpotDeal.isWon d =
    includes (toLowerCase (HubSpotDeal.stage d)) "won"
    || includes (toLowerCase (HubSpotDeal.stage d)) "closed".
Proof.
  intros H. destruct (normalize_inv h raw d H) as (props & assoc & Hp & Ha).
  destruct (normalize_returned h raw props assoc Hp Ha)
    as (d' & Hd & _ & Hs & _ & _ & _ & Hw & _).
  rewrite H in Hd. injection Hd as <-. rewrite Hw, Hs. reflexivity.
Qed.

(** C4: the code does not do what the claim says.  The stage
    "closedlost" does not contain "won", and the transform marks the deal
    as won all the same, through the token "closed". *)
Theorem closed_lost_is_marked_won :
  ∃ d, normalize Samples.host (Samples.raw_deal (Some "7") Samples.lost_props) = Returned d
     ∧ HubSpotDeal.stage d = "closedlost"
     ∧ includes (toLowerCase (HubSpotDeal.stage d)) "won" = false
     ∧ includes (toLowerCase (HubSpotDeal.stage d)) "closed" = true
     ∧ HubSpotDeal.isWon d = true.
Proof. eexists. split; [vm_compute; reflexivity|]. repeat split. Qed.

(** C5: for every raw deal whose [dealstage] contains "won" in any
    mix of upper and lower case, the transform returns a normalized deal
    with [isWon] and [isClosed] both true. *)
Theorem won_stage_is_won_and_closed (h : Host) (raw : HubSpotDealRaw.t)
    (props : gmap string JsVal) (assoc : HubSpotDealAssociations.t) (s : string) :
  HubSpotDealRaw.properties raw = Some props →
  HubSpotDealRaw.associations raw = Some assoc →
  props !! "dealstage" = Some (JStr s) →
  won_ignoring_case s →
  ∃ d, normalize h raw = Returned d
     ∧ HubSpotDeal.isWon d = true ∧ HubSpotDeal.isClosed d = true.
Proof.
  intros Hp Ha Hs Hwon. apply won_ignoring_case_iff in Hwon.
  destruct (normalize_returned h raw props assoc Hp Ha)
    as (d & Hd & _ & _ & _ & _ & _ & Hw & Hc & _).
  assert (Hne : s ≠ "")
    by (apply toLowerCase_nonempty; eapply includes_nonempty; [exact Hwon|discriminate]).
  rewrite (get_lookup _ _ _ Hs), (nonempty_or_str _ _ Hne), Hwon in Hw, Hc.
  exists d. auto.
Qed.

Lemma won_stage_is_won_and_closed_witness :
  ∃ d, normalize Samples.host (Samples.raw_deal (Some "8") Samples.won_props) = Returned d
     ∧ HubSpotDeal.isWon d = true ∧ HubSpotDeal.isClosed d = true.
Proof.
  apply (won_stage_is_won_and_closed Samples.host
           (Samples.raw_deal (Some "8") Samples.won_props)
           Samples.won_props Samples.no_associations "Closed WON");
    [reflexivity|reflexivity|vm_compute; reflexivity|].
  exists "Closed ", "W"%char, "O"%char, "N"%char, "". split; [reflexivity|]. auto.
Defined.

(** C6: for every raw deal whose [amount] has no value (absent, null,
    empty) or does not parse as a number, the transform returns a
    normalized deal, no error, and its [amount] is 0. *)
Theorem unparseable_amount_is_zero (h : Host) (raw : HubSpotDealRaw.t)
    (props : gmap string JsVal) (assoc : HubSpotDealAssociations.t) :
  HubSpotDealRaw.properties raw = Some props →
  HubSpotDealRaw.associations raw = Some assoc →
  no_value props "amount"
    ∨ (∃ s, props !! "amount" = Some (JStr s) ∧ parseFloat s = NaN) →
  ∃ d, normalize h raw = Returned d ∧ HubSpotDeal.amount d = zero.
Proof.
  intros Hp Ha Hamount.
  destruct (normalize_returned h raw props assoc Hp Ha) as (d & Hd & _ & _ & Hamt & _).
  exists d. split; [exact Hd|]. rewrite Hamt.
  destruct Hamount as [Hno|(s & Hs & Hnan)].
  - apply no_value_falsy in Hno. rewrite (falsy_or_str _ _ Hno). reflexivity.
  - rewrite (get_lookup _ _ _ Hs). destruct (String.eqb_spec s "") as [->|Hne].
    + reflexivity.
    + rewrite (nonempty_or_str _ _ Hne), Hnan. reflexivity.
Qed.

Lemma unparseable_amount_is_zero_witness :
  ∃ d, normalize Samples.host (Samples.raw_deal (Some "8") Samples.won_props) = Returned d
     ∧ HubSpotDeal.amount d = zero.
Proof.
  apply (unparseable_amount_is_zero Samples.host
           (Samples.raw_deal (Some "8") Samples.won_props)
           Samples.won_props Samples.no_associations);
    [reflexivity|reflexivity|].
  right. exists "n/a". split; vm_compute; reflexivity.
Defined.

(** C7, as stated, fails: with an [amount] of "100" and no
    [hs_forecast_amount] and no [hs_projected_amount], [forecastAmount]
    and [projectedAmount] are 100, not 0. *)
Lemma absent_forecast_takes_the_amount :
  Samples.amount_only_props !! "hs_forecast_amount" = None
  ∧ Samples.amount_only_props !! "hs_projected_amount" = None
  ∧ ∃ d, normalize Samples.host (Samples.raw_deal (Some "9") Samples.amount_only_props)
           = Returned d
       ∧ HubSpotDeal.forecastAmount d = Fin 100
       ∧ HubSpotDeal.projectedAmount d = Fin 100
       ∧ Fin 100 ≠ zero.
Proof.
  split; [vm_compute; reflexivity|]. split; [vm_compute; reflexivity|].
  eexists. split; [vm_compute; reflexivity|]. repeat split. discriminate.
Qed.

(** C7, amended: when [hs_forecast_amount] (respectively
    [hs_projected_amount]) has no value, [forecastAmount] (respectively
    [projectedAmount]) is the deal's [amount], hence 0 only when the
    amount is 0 as well; when it has a value that does not parse as a
    number, the field is 0 whatever the other properties hold. *)
Theorem forecast_falls_back_to_amount (h : Host) (raw : HubSpotDealRaw.t)
    (props : gmap string JsVal) (assoc : HubSpotDealAssociations.t) :
  HubSpotDealRaw.properties raw = Some props →
  HubSpotDealRaw.associations raw = Some assoc →
  ∃ d, normalize h raw = Returned d
     ∧ (no_value props "hs_forecast_amount" →
        HubSpotDeal.forecastAmount d = HubSpotDeal.amount d)
     ∧ (no_value props "hs_projected_amount" →
        HubSpotDeal.projectedAmount d = HubSpotDeal.amount d)
     ∧ (∀ s, props !! "hs_forecast_amount" = Some (JStr s) → s ≠ "" →
        parseFloat s = NaN → HubSpotDeal.forecastAmount d = zero)
     ∧ (∀ s, props !! "hs_projected_amount" = Some (JStr s) → s ≠ "" →
        parseFloat s = NaN → HubSpotDeal.projectedAmount d = zero).
Proof.
  intros Hp Ha.
  destruct (normalize_returned h raw props assoc Hp Ha)
    as (d & Hd & _ & _ & Hamt & Hf & Hpr & _).
  exists d. split; [exact Hd|]. rewrite Hamt, Hf, Hpr. repeat split.
  - intros Hno. apply no_value_falsy in Hno. rewrite (falsy_or_else _ _ Hno). reflexivity.
  - intros Hno. apply no_value_falsy in Hno. rewrite (falsy_or_else _ _ Hno). reflexivity.
  - intros s Hs Hne Hnan. rewrite (get_lookup _ _ _ Hs). unfold or_else.
    rewrite (nonempty_truthy _ Hne), (nonempty_or_str _ _ Hne), Hnan. reflexivity.
  - intros s Hs Hne Hnan. rewrite (get_lookup _ _ _ Hs). unfold or_else.
    rewrite (nonempty_truthy _ Hne), (nonempty_or_str _ _ Hne), Hnan. reflexivity.
Qed.

Lemma forecast_falls_back_to_amount_witness :
  (∃ d, normalize Samples.host (Samples.raw_deal (Some "9") Samples.amount_only_props)
          = Returned d
      ∧ HubSpotDeal.forecastAmount d = HubSpotDeal.amount d
      ∧ HubSpotDeal.projectedAmount d = HubSpotDeal.amount d)
  ∧ (∃ d, normalize Samples.host (Samples.raw_deal (Some "10") Samples.bad_forecast_props)
          = Returned d
      ∧ HubSpotDeal.forecastAmount d = zero
      ∧ HubSpotDeal.projectedAmount d = zero).
Proof.
  split.
  - destruct (forecast_falls_back_to_amount Samples.host
                (Samples.raw_deal (Some "9") Samples.amount_only_props)
                Samples.amount_only_props Samples.no_associations eq_refl eq_refl)
      as (d & Hd & Hf & Hp & _).
    exists d. split; [exact Hd|]. split; [apply Hf|apply Hp]; left; vm_compute; reflexivity.
  - destruct (forecast_falls_back_to_amount Samples.host
                (Samples.raw_deal (Some "10") Samples.bad_forecast_props)
                Samples.bad_forecast_props Samples.no_associations eq_refl eq_refl)
      as (d & Hd & _ & _ & Hf & Hp).
    exists d. split; [exact Hd|].
    split; [apply (Hf "tbd")|apply (Hp "-")]; try discriminate; vm_compute; reflexivity.
Defined.

(** C10: every normalized deal the transform returns that is marked won
    is marked closed. *)
Theorem won_implies_closed (h : Host) (raw : HubSpotDealRaw.t) (d : HubSpotDeal.t) :
  normalize h raw = Returned d →
  HubSpotDeal.isWon d = true → HubSpotDeal.isClosed d = true.
Proof.
  intros H Hwon. destruct (normalize_inv h raw d H) as (props & assoc & Hp & Ha).
  destruct (normalize_returned h raw props assoc Hp Ha)
    as (d' & Hd & _ & _ & _ & _ & _ & Hw & Hc & _).
  rewrite H in Hd. injection Hd as <-.
  rewrite Hc, <- Hw, Hwon. reflexivity.
Qed.

Lemma won_implies_closed_witness :
  ∃ d, normalize Samples.host (Samples.raw_deal (Some "8") Samples.won_props) = Returned d
     ∧ HubSpotDeal.isWon d = true ∧ HubSpotDeal.isClosed d = true.
Proof.
  eexists. split; [vm_compute; reflexivity|]. split; [reflexivity|].
  apply (won_implies_closed Samples.host (Samples.raw_deal (Some "8") Samples.won_props));
    vm_compute; reflexivity.
Defined.

(** ** The sync driver: what is forwarded *)

Lemma lookup_assign_eq {V : Type} (m : gmap string V) (key : string) (x : V) :
  key ≠ "__proto__" → assign m key x !! key = Some x.
Proof.
  intros H. unfold assign. destruct (String.eqb_spec key "__proto__"); [contradiction|].
  apply lookup_insert_eq.
Qed.

Lemma lookup_assign_ne {V : Type} (m : gmap string V) (key key' : string) (x : V) :
  key ≠ key' → assign m key x !! key' = m !! key'.
Proof.
  intros H. unfold assign. destruct (String.eqb key "__proto__"); [reflexivity|].
  apply lookup_insert_ne, H.
Qed.

Lemma assign_proto {V : Type} (m : gmap string V) (x : V) : assign m "__proto__" x = m.
Proof. reflexivity. Qed.

(** What the loop over the entries leaves in [cleanProperties]. *)
Lemma cleanProperties_lookup (properties : option (gmap string JsVal))
    (key v : string) :
  cleanProperties properties !! key = Some v
  ↔ key ≠ "__proto__"
    ∧ ∃ props, properties = Some props ∧ props !! key = Some (JStr v) ∧ v ≠ "".
Proof.
  unfold cleanProperties. destruct properties as [props|]; simpl.
  - transitivity (key ≠ "__proto__" ∧ props !! key = Some (JStr v) ∧ v ≠ "");
      [|split; [intros (? & ? & ?); eauto|intros (? & m & [= <-] & H); auto]].
    revert key v.
    apply (map_fold_weak_ind
             (λ r (m : gmap string JsVal), ∀ key v : string,
                r !! key = Some v
                ↔ key ≠ "__proto__" ∧ m !! key = Some (JStr v) ∧ v ≠ "")).
    + intros key v. rewrite !lookup_empty. split; [discriminate|intros (_ & [=] & _)].
    + intros i x m r Hi IH key v. unfold cleanProperties_step.
      destruct (decide (key = i)) as [->|Hne].
      * rewrite lookup_insert_eq.
        assert (Hr : r !! i = Some v → False)
          by (intros Hr; apply IH in Hr; destruct Hr as (_ & Hr & _); congruence).
        destruct x as [| |s]; simpl.
        -- split; [intros Hr'; destruct (Hr Hr')|intros (_ & [=] & _)].
        -- split; [intros Hr'; destruct (Hr Hr')|intros (_ & [=] & _)].
        -- destruct (decide (s = "")) as [->|Hs].
           ++ simpl. split; [intros Hr'; destruct (Hr Hr')|intros (_ & [= <-] & Hv); congruence].
           ++ rewrite (bool_decide_eq_false_2 (JStr s = JStr "")) by congruence. simpl.
              destruct (decide (i = "__proto__")) as [->|Hp].
              ** rewrite assign_proto.
                 split; [intros Hr'; destruct (Hr Hr')|intros (Hn & _); contradiction].
              ** rewrite lookup_assign_eq by exact Hp.
                 split; [intros [= <-]; auto|intros (_ & [= <-] & _); reflexivity].
      * rewrite lookup_insert_ne by congruence.
        destruct (_ && _); [rewrite lookup_assign_ne by congruence|]; apply IH.
  - rewrite map_fold_empty, lookup_empty.
    split; [discriminate|intros (_ & m & [=] & _)].
Qed.

Lemma posted_log (l : LogLine) (st : SyncState) : posted (log l st) = posted st.
Proof. reflexivity. Qed.

Lemma posted_process_deal (w : World) (st : SyncState) (deal : ConnectorDeal.t) :
  posted (process_deal w st deal) = (posted st ++ [dealData deal])%list.
Proof.
  unfold process_deal. destruct (forward _ _ _); [reflexivity|].
  destruct (_ =? _)%nat; reflexivity.
Qed.

Lemma posted_stream_loop (w : World) (deals : list ConnectorDeal.t) (st : SyncState) :
  posted (stream_loop w st deals) = (posted st ++ map dealData deals)%list.
Proof.
  unfold stream_loop. revert st.
  induction deals as [|deal rest IH]; intros st; simpl.
  - rewrite app_nil_r. reflexivity.
  - rewrite IH, posted_process_deal, <- app_assoc. reflexivity.
Qed.

(** Whatever way a run ends, what it POSTed is the payloads of deals of
    the stream, in order. *)
Lemma posted_syncHubSpotDeals (token : JsVal) (w : World) :
  ∃ n, posted (syncHubSpotDeals token w).2 = map dealData (take n (streamDeals w)).
Proof.
  unfold syncHubSpotDeals, sync_failed.
  destruct (negb (truthy token)); [exists 0; reflexivity|].
  destruct (connect w); [exists 0; reflexivity|].
  exists (List.length (streamDeals w)). rewrite firstn_all.
  destruct (streamFailure w); [|destruct (disconnect w)]; simpl;
    rewrite ?posted_log, posted_stream_loop; reflexivity.
Qed.

(** C8: every payload a run of the driver forwards is the [dealData] of a
    deal of the stream, and its [properties] hold only keys to which the
    deal gives a non-empty string, with that string: keys that are absent,
    null, undefined or empty in the deal are not in the payload, and no
    value of the payload is the empty string.  Of the keys with a
    non-empty string the payload holds all but "__proto__". *)
Theorem forwarded_properties_have_values (token : JsVal) (w : World)
    (p : HubSpotDealRawIngestion.t) :
  p ∈ posted (syncHubSpotDeals token w).2 →
  ∃ deal, deal ∈ streamDeals w ∧ p = dealData deal
    ∧ (∀ key v, HubSpotDealRawIngestion.properties p !! key = Some v
         ↔ key ≠ "__proto__"
           ∧ ∃ props, ConnectorDeal.properties deal = Some props
                    ∧ props !! key = Some (JStr v) ∧ v ≠ "")
    ∧ (∀ key, HubSpotDealRawIngestion.properties p !! key ≠ Some "").
Proof.
  intros Hp. destruct (posted_syncHubSpotDeals token w) as (n & Hn).
  rewrite Hn in Hp. apply list_elem_of_fmap in Hp as (deal & -> & Hd).
  exists deal. split; [eapply subseteq_take; exact Hd|]. split; [reflexivity|].
  split.
  - intros key v. apply cleanProperties_lookup.
  - intros key H. apply cleanProperties_lookup in H as (_ & _ & _ & _ & Hv). congruence.
Qed.

Lemma forwarded_properties_have_values_witness :
  ∃ deal, deal ∈ SyncSamples.deals
    ∧ dealData (SyncSamples.deal "1" SyncSamples.sparse_props) = dealData deal
    ∧ (∀ key v,
         HubSpotDealRawIngestion.properties
           (dealData (SyncSamples.deal "1" SyncSamples.sparse_props)) !! key = Some v
         ↔ key ≠ "__proto__"
           ∧ ∃ props, ConnectorDeal.properties deal = Some props
                    ∧ props !! key = Some (JStr v) ∧ v ≠ "")
    ∧ (∀ key,
         HubSpotDealRawIngestion.properties
           (dealData (SyncSamples.deal "1" SyncSamples.sparse_props)) !! key ≠ Some "").
Proof.
  apply (forwarded_properties_have_values (JStr "pat-na1-token") SyncSamples.world).
  vm_compute. left.
Defined.

(** ** The sync driver: counting *)

(** The [catch] of the loop is entered exactly on a forwarding failure. *)
Lemma forward_fetch_failed (w : World) (k : nat) (data : HubSpotDealRawIngestion.t) :
  fetch_failed (fetch w k data) = true ↔ ∃ e, forward w k data = Some e.
Proof.
  unfold forward, fetch_failed. destruct (fetch w k data) as [e|[] status [text|e]]; simpl;
    split; eauto; try discriminate; intros (e' & [=]).
Qed.

Lemma forward_fetch_ok (w : World) (k : nat) (data : HubSpotDealRawIngestion.t) :
  fetch_failed (fetch w k data) = false ↔ forward w k data = None.
Proof.
  unfold forward, fetch_failed. destruct (fetch w k data) as [e|[] status [text|e]]; simpl;
    split; auto; discriminate.
Qed.

(** A forwarding failure adds one to [errorCount] and nothing to
    [successCount]; the state the loop goes on with is otherwise the one
    a forwarded deal leaves. *)
Lemma process_deal_failure (w : World) (st : SyncState) (deal : ConnectorDeal.t) :
  fetch_failed (fetch w (List.length (posted st)) (dealData deal)) = true →
  dealCount (process_deal w st deal) = S (dealCount st)
  ∧ successCount (process_deal w st deal) = successCount st
  ∧ errorCount (process_deal w st deal) = S (errorCount st).
Proof.
  intros H. apply forward_fetch_failed in H as (e & H).
  unfold process_deal. rewrite H. auto.
Qed.

Lemma process_deal_success (w : World) (st : SyncState) (deal : ConnectorDeal.t) :
  fetch_failed (fetch w (List.length (posted st)) (dealData deal)) = false →
  dealCount (process_deal w st deal) = S (dealCount st)
  ∧ successCount (process_deal w st deal) = S (successCount st)
  ∧ errorCount (process_deal w st deal) = errorCount st.
Proof.
  intros H. apply forward_fetch_ok in H.
  unfold process_deal. rewrite H. destruct (_ =? _)%nat; auto.
Qed.

(** The loop goes on with the next deal whatever happened to this one. *)
Lemma stream_loop_cons (w : World) (st : SyncState) (deal : ConnectorDeal.t)
    (rest : list ConnectorDeal.t) :
  stream_loop w st (deal :: rest) = stream_loop w (process_deal w st deal) rest.
Proof. reflexivity. Qed.

Lemma stream_loop_counts (w : World) (deals : list ConnectorDeal.t) (st : SyncState) :
  dealCount (stream_loop w st deals) = dealCount st + List.length deals
  ∧ errorCount (stream_loop w st deals)
    = errorCount st + failures w (List.length (posted st)) deals
  ∧ successCount (stream_loop w st deals) + failures w (List.length (posted st)) deals
    = successCount st + List.length deals.
Proof.
  revert st. induction deals as [|deal rest IH]; intros st.
  - simpl. lia.
  - rewrite stream_loop_cons. destruct (IH (process_deal w st deal)) as (Hd & He & Hs).
    rewrite posted_process_deal, length_app in He, Hs. simpl in He, Hs.
    replace (List.length (posted st) + 1) with (S (List.length (posted st))) in He, Hs by lia.
    simpl.
    destruct (fetch_failed (fetch w (List.length (posted st)) (dealData deal))) eqn:E.
    + destruct (process_deal_failure w st deal E) as (Hd' & Hs' & He'). lia.
    + destruct (process_deal_success w st deal E) as (Hd' & Hs' & He'). lia.
Qed.

(** C9, as stated, fails: not every run reports a summary.  In this run
    the second of three deals is refused by the endpoint and [disconnect]
    then rejects: the failure was counted, the run rethrows, and no final
    statistics are printed. *)
Lemma failed_disconnect_prints_no_summary :
  let run := syncHubSpotDeals (JStr "pat-na1-token")
               (MoreSamples.unplugged_world (Error_ "socket hang up")) in
  run.1 = Thrown (Error_ "socket hang up")
  ∧ dealCount run.2 = 3 ∧ errorCount run.2 = 1
  ∧ console run.2
    = [LogStarting; LogStreaming; LogIngestError "2" (IngestionError 500 "busy");
       LogSyncFailed (Error_ "socket hang up")]
  ∧ List.filter is_final_stats (console run.2) = [].
Proof. vm_compute. repeat split. Qed.

(** C9, amended: in every run that has a token and connects, every deal of
    the stream is POSTed, in order, whether or not earlier ones failed;
    each forwarding failure (the request is rejected, or the response is
    not ok) adds one to the error count and every other deal adds one to
    the success count; and when the connector streams to the end and
    disconnects, the run returns normally and the last line on its console
    is the final statistics: total, succeeded and errors. *)
Theorem sync_counts_failures_and_goes_on (token : JsVal) (w : World) :
  truthy token = true →
  connect w = None →
  ∃ res st, syncHubSpotDeals token w = (res, st)
    ∧ posted st = map dealData (streamDeals w)
    ∧ dealCount st = List.length (streamDeals w)
    ∧ errorCount st = failures w 0 (streamDeals w)
    ∧ successCount st + errorCount st = dealCount st
    ∧ (streamFailure w = None → disconnect w = None →
       res = Returned tt
       ∧ last (console st)
         = Some (LogFinalStats (dealCount st) (successCount st) (errorCount st))).
Proof.
  intros Ht Hc. unfold syncHubSpotDeals, sync_failed. rewrite Ht, Hc. simpl.
  destruct (stream_loop_counts w (streamDeals w) (log LogStreaming (initial [LogStarting])))
    as (Hdc & Hec & Hsc).
  simpl in Hdc, Hec, Hsc.
  destruct (streamFailure w) as [e|]; [|destruct (disconnect w) as [e|]];
    eexists _, _; (split; [reflexivity|]); simpl;
    (split; [apply posted_stream_loop|]); (split; [exact Hdc|]);
    (split; [exact Hec|]); (split; [lia|]); intros H1 H2; try discriminate.
  split; [reflexivity|]. rewrite last_snoc. reflexivity.
Qed.

Lemma sync_counts_failures_and_goes_on_witness :
  ∃ st, syncHubSpotDeals (JStr "pat-na1-token") SyncSamples.world = (Returned tt, st)
    ∧ posted st = map dealData SyncSamples.deals
    ∧ dealCount st = 3
    ∧ errorCount st = 1
    ∧ successCount st + errorCount st = dealCount st
    ∧ last (console st)
      = Some (LogFinalStats (dealCount st) (successCount st) (errorCount st)).
Proof.
  destruct (sync_counts_failures_and_goes_on (JStr "pat-na1-token") SyncSamples.world
              eq_refl eq_refl) as (res & st & Hrun & Hp & Hd & He & Hs & Hend).
  destruct (Hend eq_refl eq_refl) as (-> & Hlast).
  exists st. repeat split; assumption.
Defined.

Example sync_sample_console :
  console (syncHubSpotDeals (JStr "pat-na1-token") SyncSamples.world).2
  = [LogStarting; LogStreaming; LogIngestError "2" (IngestionError 500 "busy");
     LogCompleted; LogFinalStats 3 2 1].
Proof. vm_compute. reflexivity. Qed.

(** A run the connector aborts after its first deal: one POST, a
    rethrown error, and no statistics on the console. *)
Example sync_aborted_console :
  let w := {| connect := None;
              streamDeals := [SyncSamples.deal "1" SyncSamples.sparse_props];
              streamFailure := Some (Error_ "429");
              disconnect := None;
              fetch := fetch SyncSamples.world |} in
  (syncHubSpotDeals (JStr "pat-na1-token") w).1 = Thrown (Error_ "429")
  ∧ console (syncHubSpotDeals (JStr "pat-na1-token") w).2
    = [LogStarting; LogStreaming; LogSyncFailed (Error_ "429")].
Proof. vm_compute. split; reflexivity. Qed.

(** ** More about the transform *)

Lemma date_of_truthy (h : Host) (v : JsVal) (k k' : nat) :
  truthy v = true → date_of h v k = date_of h v k'.
Proof.
  unfold date_of, or_undefined, truthy. destruct v as [| |s]; try discriminate.
  destruct (String.eqb s ""); [discriminate|reflexivity].
Qed.

(** With its two member objects in place, the transform returns that
    record. *)
Lemma normalize_eq (h : Host) (raw : HubSpotDealRaw.t)
    (props : gmap string JsVal) (assoc : HubSpotDealAssociations.t) :
  HubSpotDealRaw.properties raw = Some props →
  HubSpotDealRaw.associations raw = Some assoc →
  normalize h raw = Returned (normalized h raw props assoc).
Proof.
  intros Hp Ha. run_transform Hp Ha.
  step_parseDate h (get props "createdate") 0.
  step_parseDate h (get props "hs_lastmodifieddate") k. subst k.
  unfold normalized.
  destruct (truthy (get props "closedate")) eqn:Hc.
  - step_parseDate h (get props "closedate") k0.
    rewrite (date_of_truthy h _ k0 0 Hc). reflexivity.
  - reflexivity.
Qed.

(** The two ways a run of the transform ends. *)
Lemma normalize_cases (h : Host) (raw : HubSpotDealRaw.t) :
  (∃ props assoc, HubSpotDealRaw.properties raw = Some props
      ∧ HubSpotDealRaw.associations raw = Some assoc
      ∧ normalize h raw = Returned (normalized h raw props assoc))
  ∨ ((HubSpotDealRaw.properties raw = None ∨ HubSpotDealRaw.associations raw = None)
      ∧ normalize h raw = Thrown TypeError).
Proof.
  destruct (HubSpotDealRaw.properties raw) as [props|] eqn:Hp;
    [|right; split; [auto|apply normalize_thrown; auto]].
  destruct (HubSpotDealRaw.associations raw) as [assoc|] eqn:Ha;
    [|right; split; [auto|apply normalize_thrown; auto]].
  left. exists props, assoc. auto using normalize_eq.
Qed.

Lemma normalize_returned_inv (h : Host) (raw : HubSpotDealRaw.t) (d : HubSpotDeal.t) :
  normalize h raw = Returned d →
  ∃ props assoc, HubSpotDealRaw.properties raw = Some props
    ∧ HubSpotDealRaw.associations raw = Some assoc
    ∧ d = normalized h raw props assoc.
Proof.
  intros H. destruct (normalize_cases h raw) as [(props & assoc & Hp & Ha & E)|[_ E]];
    rewrite E in H; [|discriminate].
  injection H as <-. eauto.
Qed.

(** X1: the transform throws exactly when the raw deal has no [properties]
    object or no [associations] object, and what it throws is then a
    [TypeError]; nothing else makes it throw. *)
Theorem transform_throws_only_without_member_objects (h : Host) (raw : HubSpotDealRaw.t) :
  (normalize h raw = Thrown TypeError
     ↔ HubSpotDealRaw.properties raw = None ∨ HubSpotDealRaw.associations raw = None)
  ∧ (∀ e, normalize h raw = Thrown e → e = TypeError).
Proof.
  destruct (normalize_cases h raw) as [(props & assoc & Hp & Ha & E)|[Hn E]]; rewrite E.
  - split; [split; [discriminate|intros [H|H]; congruence]|discriminate].
  - split; [tauto|congruence].
Qed.

Lemma or_str_nonempty (v : JsVal) (d : string) : d ≠ "" → or_str v d ≠ "".
Proof.
  intros Hd. destruct v as [| |s]; simpl; try exact Hd.
  destruct (String.eqb_spec s ""); [exact Hd|assumption].
Qed.

(** X2: in every normalized deal the name, the currency, the stage, the
    pipeline and the two labels are non-empty strings, and the optional
    deal type and owner are never the empty string. *)
Theorem string_fields_are_never_empty (h : Host) (raw : HubSpotDealRaw.t) (d : HubSpotDeal.t) :
  normalize h raw = Returned d →
  HubSpotDeal.dealName d ≠ "" ∧ HubSpotDeal.currency d ≠ ""
  ∧ HubSpotDeal.stage d ≠ "" ∧ HubSpotDeal.stageLabel d ≠ ""
  ∧ HubSpotDeal.pipeline d ≠ "" ∧ HubSpotDeal.pipelineLabel d ≠ ""
  ∧ HubSpotDeal.dealType d ≠ Some "" ∧ HubSpotDeal.ownerId d ≠ Some "".
Proof.
  intros H. apply normalize_returned_inv in H as (props & assoc & _ & _ & ->). simpl.
  assert (Hu : ∀ v, or_undefined v ≠ Some "").
  { intros [| |s]; simpl; try discriminate.
    destruct (String.eqb_spec s ""); [discriminate|congruence]. }
  repeat split; try apply Hu; repeat apply or_str_nonempty; discriminate.
Qed.

Lemma string_fields_are_never_empty_witness :
  ∃ d, normalize Samples.host (Samples.raw_deal (Some "42") Samples.undated_props) = Returned d
    ∧ HubSpotDeal.dealName d ≠ "" ∧ HubSpotDeal.currency d ≠ ""
    ∧ HubSpotDeal.stage d ≠ "" ∧ HubSpotDeal.stageLabel d ≠ ""
    ∧ HubSpotDeal.pipeline d ≠ "" ∧ HubSpotDeal.pipelineLabel d ≠ ""
    ∧ HubSpotDeal.dealType d ≠ Some "" ∧ HubSpotDeal.ownerId d ≠ Some "".
Proof.
  eexists. split; [vm_compute; reflexivity|].
  apply (string_fields_are_never_empty Samples.host
           (Samples.raw_deal (Some "42") Samples.undated_props)).
  vm_compute. reflexivity.
Defined.

Lemma num_or_not_NaN (a b : number) : b ≠ NaN → num_or a b ≠ NaN.
Proof.
  unfold num_or. destruct a; simpl; try (intros; assumption || discriminate).
  destruct (negb _); [discriminate|auto].
Qed.

(** X3: no numeric field of a normalized deal other than [daysToClose] is
    ever [NaN]: amount, stage probability, forecast and projected amounts,
    contact count and note count. *)
Theorem numeric_fields_are_never_NaN (h : Host) (raw : HubSpotDealRaw.t) (d : HubSpotDeal.t) :
  normalize h raw = Returned d →
  HubSpotDeal.amount d ≠ NaN ∧ HubSpotDeal.stageProbability d ≠ NaN
  ∧ HubSpotDeal.forecastAmount d ≠ NaN ∧ HubSpotDeal.projectedAmount d ≠ NaN
  ∧ HubSpotDeal.contactCount d ≠ NaN ∧ HubSpotDeal.noteCount d ≠ NaN.
Proof.
  intros H. apply normalize_returned_inv in H as (props & assoc & _ & _ & ->). simpl.
  repeat split; apply num_or_not_NaN; discriminate.
Qed.

Lemma numeric_fields_are_never_NaN_witness :
  ∃ d, normalize Samples.host (Samples.raw_deal (Some "10") Samples.bad_forecast_props)
         = Returned d
    ∧ HubSpotDeal.amount d ≠ NaN ∧ HubSpotDeal.stageProbability d ≠ NaN
    ∧ HubSpotDeal.forecastAmount d ≠ NaN ∧ HubSpotDeal.projectedAmount d ≠ NaN
    ∧ HubSpotDeal.contactCount d ≠ NaN ∧ HubSpotDeal.noteCount d ≠ NaN.
Proof.
  eexists. split; [vm_compute; reflexivity|].
  apply (numeric_fields_are_never_NaN Samples.host
           (Samples.raw_deal (Some "10") Samples.bad_forecast_props)).
  vm_compute. reflexivity.
Defined.

(** What the loop over the entries leaves in [customProperties]. *)
Lemma customProperties_lookup (props : gmap string JsVal) (key : string) (v : JsVal) :
  map_fold customProperties_step ∅ props !! key = Some v
  ↔ (key ∉ standardProperties) ∧ key ≠ "__proto__"
    ∧ props !! key = Some v ∧ v ≠ JUndefined ∧ v ≠ JNull.
Proof.
  revert key v.
  apply (map_fold_weak_ind
           (λ r (m : gmap string JsVal), ∀ key v,
              r !! key = Some v
              ↔ (key ∉ standardProperties) ∧ key ≠ "__proto__"
                ∧ m !! key = Some v ∧ v ≠ JUndefined ∧ v ≠ JNull)).
  - intros key v. rewrite !lookup_empty. split; [discriminate|intros (_ & _ & [=] & _)].
  - intros i x m r Hi IH key v. unfold customProperties_step.
    destruct (decide (key = i)) as [->|Hne].
    + rewrite lookup_insert_eq.
      assert (Hr : r !! i = Some v → False)
        by (intros Hr; apply IH in Hr; destruct Hr as (_ & _ & Hr & _); congruence).
      destruct (bool_decide (i ∈ standardProperties)) eqn:Es; simpl.
      * apply bool_decide_eq_true_1 in Es.
        split; [intros Hr'; destruct (Hr Hr')|intros (Hn & _); contradiction].
      * apply bool_decide_eq_false_1 in Es.
        destruct x as [| |s]; simpl.
        -- split; [intros Hr'; destruct (Hr Hr')
                  |intros (_ & _ & [= <-] & Hu & _); congruence].
        -- split; [intros Hr'; destruct (Hr Hr')
                  |intros (_ & _ & [= <-] & _ & Hu); congruence].
        -- destruct (decide (i = "__proto__")) as [->|Hp].
           ++ rewrite assign_proto.
              split; [intros Hr'; destruct (Hr Hr')|intros (_ & Hn & _); contradiction].
           ++ rewrite lookup_assign_eq by exact Hp.
              split; [intros [= <-]; repeat split; auto; discriminate
                     |intros (_ & _ & H & _); exact H].
    + rewrite lookup_insert_ne by congruence.
      destruct (_ && _); [rewrite lookup_assign_ne by congruence|]; apply IH.
Qed.

(** X4: [customProperties] holds a key with a value exactly when the key is
    neither one of the standard properties nor "__proto__" and the raw
    deal gives it that value, neither [undefined] nor [null].  An empty
    string is kept. *)
Theorem custom_properties_are_the_non_standard_ones (h : Host) (raw : HubSpotDealRaw.t)
    (props : gmap string JsVal) (d : HubSpotDeal.t) :
  HubSpotDealRaw.properties raw = Some props →
  normalize h raw = Returned d →
  ∀ key v, HubSpotDeal.customProperties d !! key = Some v
    ↔ (key ∉ standardProperties) ∧ key ≠ "__proto__"
      ∧ props !! key = Some v ∧ v ≠ JUndefined ∧ v ≠ JNull.
Proof.
  intros Hp H key v. apply normalize_returned_inv in H as (props' & assoc & Hp' & _ & ->).
  rewrite Hp in Hp'. injection Hp' as <-. simpl. apply customProperties_lookup.
Qed.

Lemma custom_properties_are_the_non_standard_ones_witness :
  ∃ d, normalize Samples.host (MoreSamples.raw_with_contacts MoreSamples.closed_props)
         = Returned d
    ∧ HubSpotDeal.customProperties d !! "__proto__" = None
    ∧ ∀ key v, HubSpotDeal.customProperties d !! key = Some v
        ↔ (key ∉ standardProperties) ∧ key ≠ "__proto__"
          ∧ MoreSamples.closed_props !! key = Some v
          ∧ v ≠ JUndefined ∧ v ≠ JNull.
Proof.
  eexists. split; [vm_compute; reflexivity|]. split; [vm_compute; reflexivity|].
  apply (custom_properties_are_the_non_standard_ones Samples.host
           (MoreSamples.raw_with_contacts MoreSamples.closed_props));
    [reflexivity|vm_compute; reflexivity].
Defined.

(** ceil(|a - b| / day) on the numbers of two time values *)
Lemma days_between (t1 t2 : Z) :
  Math_ceil (num_div_const (Math_abs (num_sub (of_Z t2) (of_Z t1))) msPerDay)
  = of_Z (- ((- Z.abs (t2 - t1)) / Zpos msPerDay))%Z.
Proof.
  unfold Math_ceil, num_div_const, Math_abs, num_sub, of_Z. f_equal. f_equal.
  assert (E : (Qred (Qabs (Qred (inject_Z t2 - inject_Z t1)) / inject_Z (Zpos msPerDay))
               == Z.abs (t2 - t1) # msPerDay)%Q).
  { rewrite Qred_correct. rewrite (Qabs_wd _ _ (Qred_correct _)).
    unfold Qminus. rewrite <- inject_Z_opp, <- inject_Z_plus.
    unfold Qdiv, Qinv, inject_Z, Qabs, Qmult, Qeq. simpl. lia. }
  rewrite (Qceiling_comp _ _ E). reflexivity.
Qed.

Lemma ceil_div_spec (a : Z) (b : positive) :
  let n := (- ((- a) / Zpos b))%Z in
  (Zpos b * (n - 1) < a ≤ Zpos b * n)%Z.
Proof.
  simpl. pose proof (Z.div_mod (- a) (Zpos b) ltac:(lia)) as E.
  pose proof (Z.mod_pos_bound (- a) (Zpos b) ltac:(lia)) as B. lia.
Qed.

Lemma date_of_parsed (h : Host) (props : gmap string JsVal) (key s : string) (k : nat) :
  props !! key = Some (JStr s) → s ≠ "" →
  date_of h (get props key) k = new_Date h s.
Proof.
  intros Hs Hne. rewrite (get_lookup _ _ _ Hs). unfold date_of, or_undefined.
  destruct (String.eqb_spec s ""); [contradiction|reflexivity].
Qed.

Lemma truthy_lookup (props : gmap string JsVal) (key s : string) :
  props !! key = Some (JStr s) → s ≠ "" → truthy (get props key) = true.
Proof. intros Hs Hne. rewrite (get_lookup _ _ _ Hs). apply nonempty_truthy, Hne. Qed.

(** X5: when [createdate] and [closedate] both parse, to time values a
    [Date] can hold and less than 2^53 ms apart, a closed deal gets the
    number of started days between the two instants, in either order: the
    integer [n >= 0] with [(n-1) days < |closed - created| <= n days].  A
    deal that is not closed gets none. *)
Theorem days_to_close_counts_whole_days (h : Host) (raw : HubSpotDealRaw.t)
    (props : gmap string JsVal) (assoc : HubSpotDealAssociations.t)
    (created closed : string) (t1 t2 : Z) :
  HubSpotDealRaw.properties raw = Some props →
  HubSpotDealRaw.associations raw = Some assoc →
  props !! "createdate" = Some (JStr created) → created ≠ "" →
  props !! "closedate" = Some (JStr closed) → closed ≠ "" →
  Date_parse h created = Some t1 → Date_parse h closed = Some t2 →
  exact_gap t1 t2 →
  ∃ d, normalize h raw = Returned d
    ∧ (HubSpotDeal.isClosed d = false → HubSpotDeal.daysToClose d = None)
    ∧ (HubSpotDeal.isClosed d = true →
       ∃ n : Z, HubSpotDeal.daysToClose d = Some (of_Z n)
         ∧ (0 ≤ n)%Z
         ∧ (Zpos msPerDay * (n - 1) < Z.abs (t2 - t1) ≤ Zpos msPerDay * n)%Z).
Proof.
  intros Hp Ha Hc Hcn Hl Hln P1 P2 _. rewrite (normalize_eq h raw props assoc Hp Ha).
  eexists. split; [reflexivity|]. unfold normalized. cbn [HubSpotDeal.isClosed HubSpotDeal.daysToClose].
  rewrite (truthy_lookup _ _ _ Hl Hln), (date_of_parsed h _ _ _ _ Hc Hcn),
    (date_of_parsed h _ _ _ _ Hl Hln).
  unfold new_Date. rewrite P1, P2. cbn [getTime].
  split; [intros ->; reflexivity|]. intros ->.
  exists (- ((- Z.abs (t2 - t1)) / Zpos msPerDay))%Z.
  split; [rewrite days_between; reflexivity|].
  pose proof (ceil_div_spec (Z.abs (t2 - t1)) msPerDay) as B. simpl in B. lia.
Qed.

Lemma days_to_close_counts_whole_days_witness :
  ∃ d, normalize Samples.host (MoreSamples.raw_with_contacts MoreSamples.closed_props)
         = Returned d
    ∧ HubSpotDeal.isClosed d = true
    ∧ HubSpotDeal.daysToClose d = Some (of_Z 61).
Proof.
  destruct (days_to_close_counts_whole_days Samples.host
              (MoreSamples.raw_with_contacts MoreSamples.closed_props)
              MoreSamples.closed_props MoreSamples.with_contacts
              "2024-01-01T00:00:00.000Z" "2024-03-01T12:30:15.250Z"
              1704067200000 1709296215250)
    as (d & Hd & _ & Hdays);
    try discriminate; try (vm_compute; reflexivity).
  { unfold exact_gap. lia. }
  assert (Hclosed : HubSpotDeal.isClosed d = true)
    by (vm_compute in Hd; injection Hd as <-; reflexivity).
  exists d. split; [exact Hd|]. split; [exact Hclosed|].
  destruct (Hdays Hclosed) as (n & -> & Hn & Hlo & Hhi).
  replace n with 61%Z by (unfold msPerDay in *; lia). reflexivity.
Defined.

(** X6: [daysToClose] is missing exactly when the deal is not closed or
    [closedate] has no value, and [closeDate] is missing exactly when
    [closedate] has no value. *)
Theorem days_to_close_needs_a_closed_stage_and_a_close_date (h : Host)
    (raw : HubSpotDealRaw.t) (props : gmap string JsVal) (d : HubSpotDeal.t) :
  HubSpotDealRaw.properties raw = Some props →
  normalize h raw = Returned d →
  (HubSpotDeal.daysToClose d = None
     ↔ HubSpotDeal.isClosed d = false ∨ no_value props "closedate")
  ∧ (HubSpotDeal.closeDate d = None ↔ no_value props "closedate").
Proof.
  intros Hp H. apply normalize_returned_inv in H as (props' & assoc & Hp' & _ & ->).
  rewrite Hp in Hp'. injection Hp' as <-. unfold normalized.
  cbn [HubSpotDeal.isClosed HubSpotDeal.daysToClose HubSpotDeal.closeDate].
  rewrite no_value_falsy. destruct (truthy (get props "closedate")).
  - split; [|split; [discriminate|intros [=]]].
    destruct (_ || _ || _ || _); split; auto; try discriminate. intros [H|H]; discriminate.
  - split; split; auto.
Qed.

Lemma days_to_close_needs_a_closed_stage_and_a_close_date_witness :
  ∃ d, normalize Samples.host (Samples.raw_deal (Some "7") Samples.lost_props) = Returned d
    ∧ (HubSpotDeal.daysToClose d = None
         ↔ HubSpotDeal.isClosed d = false ∨ no_value Samples.lost_props "closedate")
    ∧ (HubSpotDeal.closeDate d = None ↔ no_value Samples.lost_props "closedate").
Proof.
  eexists. split; [vm_compute; reflexivity|].
  apply (days_to_close_needs_a_closed_stage_and_a_close_date Samples.host
           (Samples.raw_deal (Some "7") Samples.lost_props));
    [reflexivity|vm_compute; reflexivity].
Defined.

(** X7: a [closedate] that does not parse is kept as an Invalid Date, and
    on a closed deal it makes [daysToClose] [NaN]. *)
Theorem unparseable_close_date_gives_NaN_days (h : Host) (raw : HubSpotDealRaw.t)
    (props : gmap string JsVal) (d : HubSpotDeal.t) (closed : string) :
  HubSpotDealRaw.properties raw = Some props →
  normalize h raw = Returned d →
  props !! "closedate" = Some (JStr closed) → closed ≠ "" →
  Date_parse h closed = None →
  HubSpotDeal.closeDate d = Some InvalidDate
  ∧ (HubSpotDeal.isClosed d = true → HubSpotDeal.daysToClose d = Some NaN).
Proof.
  intros Hp H Hl Hln P. apply normalize_returned_inv in H as (props' & assoc & Hp' & _ & ->).
  rewrite Hp in Hp'. injection Hp' as <-. unfold normalized.
  cbn [HubSpotDeal.isClosed HubSpotDeal.daysToClose HubSpotDeal.closeDate].
  rewrite (truthy_lookup _ _ _ Hl Hln), (date_of_parsed h _ _ _ _ Hl Hln).
  unfold new_Date. rewrite P. split; [reflexivity|]. intros ->. reflexivity.
Qed.

Lemma unparseable_close_date_gives_NaN_days_witness :
  ∃ d, normalize Samples.host (Samples.raw_deal (Some "11") MoreSamples.bad_close_props)
         = Returned d
    ∧ HubSpotDeal.closeDate d = Some InvalidDate
    ∧ (HubSpotDeal.isClosed d = true → HubSpotDeal.daysToClose d = Some NaN).
Proof.
  eexists. split; [vm_compute; reflexivity|].
  apply (unparseable_close_date_gives_NaN_days Samples.host
           (Samples.raw_deal (Some "11") MoreSamples.bad_close_props)
           MoreSamples.bad_close_props _ "soon");
    try discriminate; vm_compute; reflexivity.
Defined.

(** X8: [contactCount] is the number parsed from
    [num_associated_contacts] when that is a number other than 0; when the
    property has no value, or parses to [NaN] or 0, it is the number of
    associated contacts. *)
Theorem contact_count_falls_back_to_the_associations (h : Host) (raw : HubSpotDealRaw.t)
    (props : gmap string JsVal) (assoc : HubSpotDealAssociations.t) :
  HubSpotDealRaw.properties raw = Some props →
  HubSpotDealRaw.associations raw = Some assoc →
  ∃ d, normalize h raw = Returned d
    ∧ (no_value props "num_associated_contacts" →
       HubSpotDeal.contactCount d = of_nat (List.length (HubSpotDeal.associatedContacts d)))
    ∧ (∀ s, props !! "num_associated_contacts" = Some (JStr s) →
         num_truthy (parseInt s) = false →
         HubSpotDeal.contactCount d = of_nat (List.length (HubSpotDeal.associatedContacts d)))
    ∧ (∀ s, props !! "num_associated_contacts" = Some (JStr s) →
         num_truthy (parseInt s) = true →
         HubSpotDeal.contactCount d = parseInt s).
Proof.
  intros Hp Ha. rewrite (normalize_eq h raw props assoc Hp Ha).
  eexists. split; [reflexivity|]. unfold normalized.
  cbn [HubSpotDeal.contactCount HubSpotDeal.associatedContacts]. repeat split.
  - intros Hno. apply no_value_falsy in Hno. rewrite (falsy_or_str _ _ Hno). reflexivity.
  - intros s Hs Hf. rewrite (get_lookup _ _ _ Hs). simpl.
    destruct (String.eqb s ""); [reflexivity|]. unfold num_or. rewrite Hf. reflexivity.
  - intros s Hs Ht. rewrite (get_lookup _ _ _ Hs). simpl.
    destruct (String.eqb_spec s "") as [->|_]; [discriminate|].
    unfold num_or. rewrite Ht. reflexivity.
Qed.

Lemma contact_count_falls_back_to_the_associations_witness :
  ∃ d, normalize Samples.host (MoreSamples.raw_with_contacts Samples.undated_props)
         = Returned d
    ∧ HubSpotDeal.contactCount d = of_nat 2.
Proof.
  destruct (contact_count_falls_back_to_the_associations Samples.host
              (MoreSamples.raw_with_contacts Samples.undated_props)
              Samples.undated_props MoreSamples.with_contacts eq_refl eq_refl)
    as (d & Hd & Hno & _).
  exists d. split; [exact Hd|]. rewrite Hno by (left; vm_compute; reflexivity).
  vm_compute in Hd. injection Hd as <-. reflexivity.
Defined.

(** X9: the raw deal's own [createdAt] and [updatedAt] have no influence on
    what the transform gives: changing them changes nothing. *)
Theorem raw_timestamps_are_never_read (h : Host) (raw : HubSpotDealRaw.t)
    (createdAt updatedAt : string) :
  normalize h {| HubSpotDealRaw.id := HubSpotDealRaw.id raw;
                 HubSpotDealRaw.properties := HubSpotDealRaw.properties raw;
                 HubSpotDealRaw.createdAt := createdAt;
                 HubSpotDealRaw.updatedAt := updatedAt;
                 HubSpotDealRaw.archived := HubSpotDealRaw.archived raw;
                 HubSpotDealRaw.associations := HubSpotDealRaw.associations raw |}
  = normalize h raw.
Proof.
  destruct (normalize_cases h raw) as [(props & assoc & Hp & Ha & ->)|[Hn ->]].
  - erewrite normalize_eq by (simpl; eassumption). reflexivity.
  - apply normalize_thrown. exact Hn.
Qed.

(** X10: a deal without a [dealstage] gets the stage "unknown", is neither
    won nor closed, and has no [daysToClose], with or without a close
    date. *)
Theorem deal_without_stage_is_open (h : Host) (raw : HubSpotDealRaw.t)
    (props : gmap string JsVal) (d : HubSpotDeal.t) :
  HubSpotDealRaw.properties raw = Some props →
  normalize h raw = Returned d →
  no_value props "dealstage" →
  HubSpotDeal.stage d = "unknown"
  ∧ HubSpotDeal.isWon d = false ∧ HubSpotDeal.isClosed d = false
  ∧ HubSpotDeal.daysToClose d = None.
Proof.
  intros Hp H Hno. apply normalize_returned_inv in H as (props' & assoc & Hp' & _ & ->).
  rewrite Hp in Hp'. injection Hp' as <-. apply no_value_falsy in Hno.
  unfold normalized.
  cbn [HubSpotDeal.stage HubSpotDeal.isWon HubSpotDeal.isClosed HubSpotDeal.daysToClose].
  rewrite (falsy_or_str _ _ Hno).
  repeat split. destruct (truthy (get props "closedate")); reflexivity.
Qed.

Lemma deal_without_stage_is_open_witness :
  ∃ d, normalize Samples.host (Samples.raw_deal (Some "42") Samples.undated_props) = Returned d
    ∧ HubSpotDeal.stage d = "unknown"
    ∧ HubSpotDeal.isWon d = false ∧ HubSpotDeal.isClosed d = false
    ∧ HubSpotDeal.daysToClose d = None.
Proof.
  eexists. split; [vm_compute; reflexivity|].
  apply (deal_without_stage_is_open Samples.host
           (Samples.raw_deal (Some "42") Samples.undated_props) Samples.undated_props);
    [reflexivity|vm_compute; reflexivity|left; vm_compute; reflexivity].
Defined.

(** X11: a normalized deal is closed exactly when its lowercased stage
    contains "won", "closed" or "lost"; it is closed without being won
    exactly when the stage contains "lost" and neither "won" nor
    "closed". *)
Theorem closed_but_not_won_means_lost_only (h : Host) (raw : HubSpotDealRaw.t)
    (d : HubSpotDeal.t) :
  normalize h raw = Returned d →
  let stage := toLowerCase (HubSpotDeal.stage d) in
  (HubSpotDeal.isClosed d = true
     ↔ includes stage "won" = true ∨ includes stage "closed" = true
       ∨ includes stage "lost" = true)
  ∧ (HubSpotDeal.isClosed d = true ∧ HubSpotDeal.isWon d = false
     ↔ includes stage "lost" = true ∧ includes stage "won" = false
       ∧ includes stage "closed" = false).
Proof.
  intros H. apply normalize_returned_inv in H as (props & assoc & _ & _ & ->).
  unfold normalized. cbn [HubSpotDeal.isClosed HubSpotDeal.isWon HubSpotDeal.stage].
  destruct (includes _ "won"), (includes _ "closed"), (includes _ "lost"); simpl;
    intuition congruence.
Qed.

Lemma closed_but_not_won_means_lost_only_witness :
  ∃ d, normalize Samples.host (Samples.raw_deal (Some "11") MoreSamples.bad_close_props)
         = Returned d
    ∧ HubSpotDeal.isClosed d = true ∧ HubSpotDeal.isWon d = false.
Proof.
  eexists. split; [vm_compute; reflexivity|].
  apply (closed_but_not_won_means_lost_only Samples.host
           (Samples.raw_deal (Some "11") MoreSamples.bad_close_props));
    vm_compute; auto.
Defined.

(** ** More about the sync driver *)

Lemma cleanProperties_of_clean (m : gmap string string) :
  (∀ key, m !! key ≠ Some "") → m !! "__proto__" = None →
  cleanProperties (Some (JStr <$> m)) = m.
Proof.
  intros Hm Hproto. apply map_eq. intros key. apply option_eq. intros v.
  rewrite cleanProperties_lookup. split.
  - intros (_ & props & [= <-] & H & _). rewrite lookup_fmap in H.
    destruct (m !! key); simpl in H; congruence.
  - intros H. split; [intros ->; congruence|].
    exists (JStr <$> m). split; [reflexivity|]. rewrite lookup_fmap, H.
    split; [reflexivity|]. intros ->. exact (Hm key H).
Qed.

(** X12: sanitizing is idempotent: the properties of a payload, sanitized
    again, are the same properties. *)
Theorem sanitizing_twice_changes_nothing (properties : option (gmap string JsVal)) :
  cleanProperties (Some (JStr <$> cleanProperties properties)) = cleanProperties properties.
Proof.
  apply cleanProperties_of_clean.
  - intros key H. apply cleanProperties_lookup in H as (_ & _ & _ & _ & Hv). congruence.
  - destruct (cleanProperties properties !! "__proto__") as [v|] eqn:E; [|reflexivity].
    apply cleanProperties_lookup in E as (Hn & _). contradiction.
Qed.

Lemma console_process_deal (w : World) (st : SyncState) (deal : ConnectorDeal.t) :
  ∃ lines, console (process_deal w st deal) = (console st ++ lines)%list
    ∧ List.filter is_final_stats lines = []
    ∧ List.length (List.filter is_ingest_error lines)
      = if fetch_failed (fetch w (List.length (posted st)) (dealData deal))
        then 1 else 0.
Proof.
  unfold process_deal.
  destruct (fetch_failed (fetch w (List.length (posted st)) (dealData deal))) eqn:E.
  - apply forward_fetch_failed in E as (e & ->). eexists [_]. simpl. auto.
  - apply forward_fetch_ok in E as ->.
    destruct (_ =? _)%nat; [eexists [_]|exists []]; simpl; rewrite ?app_nil_r; auto.
Qed.

(** What the loop adds to the console: no statistics, and one error line
    for each deal that is not forwarded. *)
Lemma console_stream_loop (w : World) (deals : list ConnectorDeal.t) (st : SyncState) :
  ∃ lines, console (stream_loop w st deals) = (console st ++ lines)%list
    ∧ List.filter is_final_stats lines = []
    ∧ List.length (List.filter is_ingest_error lines)
      = failures w (List.length (posted st)) deals.
Proof.
  revert st. induction deals as [|deal rest IH]; intros st.
  - exists []. simpl. rewrite app_nil_r. auto.
  - rewrite stream_loop_cons.
    destruct (console_process_deal w st deal) as (l1 & E1 & F1 & N1).
    destruct (IH (process_deal w st deal)) as (l2 & E2 & F2 & N2).
    exists (l1 ++ l2)%list. rewrite E2, E1, <- app_assoc.
    rewrite !List.filter_app, F1, F2, length_app, N1, N2.
    rewrite posted_process_deal, length_app. simpl.
    replace (List.length (posted st) + 1) with (S (List.length (posted st))) by lia.
    destruct (fetch_failed _); auto.
Qed.

(** X13: in every run that connects, the console holds as many ingestion
    error lines as the error count says, whether the run completes or is
    aborted. *)
Theorem every_failure_is_logged_once (token : JsVal) (w : World) :
  truthy token = true → connect w = None →
  List.length (List.filter is_ingest_error (console (syncHubSpotDeals token w).2))
  = errorCount (syncHubSpotDeals token w).2.
Proof.
  intros Ht Hc. unfold syncHubSpotDeals, sync_failed. rewrite Ht, Hc. simpl.
  destruct (console_stream_loop w (streamDeals w) (log LogStreaming (initial [LogStarting])))
    as (lines & E & _ & N).
  destruct (stream_loop_counts w (streamDeals w) (log LogStreaming (initial [LogStarting])))
    as (_ & He & _).
  simpl in E, N, He.
  destruct (streamFailure w); [|destruct (disconnect w)]; simpl;
    rewrite E, ?List.filter_app; simpl; rewrite ?length_app; simpl; lia.
Qed.

Lemma every_failure_is_logged_once_witness :
  List.length (List.filter is_ingest_error
     (console (syncHubSpotDeals (JStr "pat-na1-token") SyncSamples.world).2))
  = errorCount (syncHubSpotDeals (JStr "pat-na1-token") SyncSamples.world).2.
Proof.
  apply (every_failure_is_logged_once (JStr "pat-na1-token") SyncSamples.world); reflexivity.
Defined.

(** X14: when the stream fails after yielding its deals, the run rethrows
    that very error; every deal yielded before was POSTed and counted; the
    last console line reports the failure, and no final statistics are
    printed. *)
Theorem aborted_stream_forwards_what_it_got (token : JsVal) (w : World) (e : Error) :
  truthy token = true → connect w = None → streamFailure w = Some e →
  ∃ st, syncHubSpotDeals token w = (Thrown e, st)
    ∧ posted st = map dealData (streamDeals w)
    ∧ dealCount st = List.length (streamDeals w)
    ∧ errorCount st = failures w 0 (streamDeals w)
    ∧ last (console st) = Some (LogSyncFailed e)
    ∧ List.filter is_final_stats (console st) = [].
Proof.
  intros Ht Hc Hs. unfold syncHubSpotDeals, sync_failed. rewrite Ht, Hc, Hs. simpl.
  eexists. split; [reflexivity|]. simpl.
  destruct (console_stream_loop w (streamDeals w) (log LogStreaming (initial [LogStarting])))
    as (lines & E & F & _).
  destruct (stream_loop_counts w (streamDeals w) (log LogStreaming (initial [LogStarting])))
    as (Hd & He & _).
  simpl in E, Hd, He.
  split; [apply posted_stream_loop|]. split; [exact Hd|]. split; [exact He|].
  split; [apply last_snoc|]. rewrite E, List.filter_app. simpl. rewrite F. reflexivity.
Qed.

Lemma aborted_stream_forwards_what_it_got_witness :
  ∃ st, syncHubSpotDeals (JStr "pat-na1-token") (MoreSamples.failing_world (Error_ "429"))
          = (Thrown (Error_ "429"), st)
    ∧ posted st = map dealData SyncSamples.deals
    ∧ dealCount st = 3
    ∧ errorCount st = 1
    ∧ last (console st) = Some (LogSyncFailed (Error_ "429"))
    ∧ List.filter is_final_stats (console st) = [].
Proof.
  apply (aborted_stream_forwards_what_it_got (JStr "pat-na1-token")
           (MoreSamples.failing_world (Error_ "429")) (Error_ "429")); reflexivity.
Defined.

(** X15: without a token, or when [connect] fails, the run throws and not a
    single request reaches the ingestion endpoint. *)
Theorem nothing_is_posted_without_token_or_connection (token : JsVal) (w : World) :
  truthy token = false ∨ connect w ≠ None →
  posted (syncHubSpotDeals token w).2 = []
  ∧ dealCount (syncHubSpotDeals token w).2 = 0
  ∧ ∃ e, (syncHubSpotDeals token w).1 = Thrown e.
Proof.
  intros H. unfold syncHubSpotDeals, sync_failed.
  destruct (truthy token); simpl; [|eauto].
  destruct H as [H|H]; [discriminate|].
  destruct (connect w); [eauto|contradiction].
Qed.

Lemma nothing_is_posted_without_token_or_connection_witness :
  posted (syncHubSpotDeals JUndefined SyncSamples.world).2 = []
  ∧ dealCount (syncHubSpotDeals JUndefined SyncSamples.world).2 = 0
  ∧ ∃ e, (syncHubSpotDeals JUndefined SyncSamples.world).1 = Thrown e.
Proof.
  apply (nothing_is_posted_without_token_or_connection JUndefined SyncSamples.world).
  left. reflexivity.
Defined.

(** X16: driver and transform together: a raw deal that carries the
    members of the payload the driver builds for a deal of the connector
    is normalized without error; the normalized deal has the deal's id and
    archived flag (false when missing), no associated contacts or
    companies, and as custom properties exactly the properties, neither
    standard nor "__proto__", to which the deal gives a non-empty
    string. *)
Theorem forwarded_deals_normalize (h : Host) (deal : ConnectorDeal.t)
    (raw : HubSpotDealRaw.t) :
  carries raw (dealData deal) →
  ∃ d, normalize h raw = Returned d
    ∧ HubSpotDeal.id d = Some (ConnectorDeal.id deal)
    ∧ HubSpotDeal.isArchived d = default false (ConnectorDeal.archived deal)
    ∧ HubSpotDeal.associatedContacts d = []
    ∧ HubSpotDeal.associatedCompanies d = []
    ∧ (∀ key v, HubSpotDeal.customProperties d !! key = Some v
         ↔ ∃ s props, v = JStr s ∧ s ≠ "" ∧ (key ∉ standardProperties)
             ∧ key ≠ "__proto__"
             ∧ ConnectorDeal.properties deal = Some props
             ∧ props !! key = Some (JStr s)).
Proof.
  intros (Hid & Hprops & Harch & Hassoc).
  rewrite (normalize_eq h raw _ _ Hprops Hassoc). eexists. split; [reflexivity|].
  unfold normalized. simpl. rewrite Hid, Harch. repeat split; try reflexivity.
  - intros H. apply customProperties_lookup in H as (Hn & Hproto & H & _).
    rewrite lookup_fmap in H.
    destruct (cleanProperties _ !! key) as [s|] eqn:E; simpl in H; [|discriminate].
    injection H as <-. apply cleanProperties_lookup in E as (_ & props & Hp & Hk & Hs).
    exists s, props. auto 10.
  - intros (s & props & -> & Hs & Hn & Hproto & Hp & Hk). apply customProperties_lookup.
    split; [exact Hn|]. split; [exact Hproto|]. rewrite lookup_fmap.
    assert (E : cleanProperties (ConnectorDeal.properties deal) !! key = Some s)
      by (apply cleanProperties_lookup; eauto).
    rewrite E. repeat split; discriminate.
Qed.

Lemma forwarded_deals_normalize_witness :
  ∃ d, normalize Samples.host
         (Samples.raw_deal (Some "1") (<["dealname" := JStr "Acme renewal"]> ∅))
       = Returned d
    ∧ HubSpotDeal.id d = Some "1"
    ∧ HubSpotDeal.isArchived d = false
    ∧ HubSpotDeal.associatedContacts d = []
    ∧ HubSpotDeal.customProperties d = ∅.
Proof.
  destruct (forwarded_deals_normalize Samples.host
              (SyncSamples.deal "1" SyncSamples.sparse_props)
              (Samples.raw_deal (Some "1") (<["dealname" := JStr "Acme renewal"]> ∅)))
    as (d & Hd & Hid & Harch & Hcontacts & _ & _).
  { repeat split; vm_compute; reflexivity. }
  exists d. repeat split; try assumption.
  vm_compute in Hd. injection Hd as <-. reflexivity.
Defined.

(** ** The sync task *)

Lemma round_seconds (a b : Z) :
  Math_round (num_div_const (num_sub (of_Z a) (of_Z b)) 1000)
  = of_Z ((2 * (a - b) + 1000) / 2000).
Proof.
  unfold Math_round, num_div_const, num_sub, of_Z. f_equal. f_equal.
  assert (E : (Qred (Qred (inject_Z a - inject_Z b) / inject_Z 1000) + (1 # 2)
               == (2 * (a - b) + 1000) # 2000)%Q).
  { rewrite Qred_correct, Qred_correct.
    unfold Qminus. rewrite <- inject_Z_opp, <- inject_Z_plus.
    unfold Qdiv, Qinv, inject_Z, Qplus, Qmult, Qeq. simpl. lia. }
  rewrite (Qfloor_comp _ _ E). reflexivity.
Qed.

(** X17: the task fails without running the sync when the token is
    missing; otherwise it runs the sync once and ends as the sync ends: on
    success its last line reports the elapsed time in whole seconds,
    rounded to the nearest (halves upwards); on failure its last line
    reports the error, which it rethrows unchanged. *)
Theorem task_reports_the_sync (token : JsVal) (w : World) (before after : Z) :
  let task := syncHubSpotDealsTask_run token w before after in
  let sync := syncHubSpotDeals token w in
  (truthy token = false →
     task.1.1 = Thrown (Error_ "HUBSPOT_TOKEN environment variable is required")
     ∧ task.2 = None)
  ∧ (truthy token = true →
     task.2 = Some sync.2
     ∧ task.1.1 = sync.1
     ∧ (sync.1 = Returned tt →
        ∃ n : Z, last task.1.2 = Some (TaskCompleted (of_Z n))
          ∧ (1000 * n - 500 ≤ after - before < 1000 * n + 500)%Z)
     ∧ (∀ e, sync.1 = Thrown e → last task.1.2 = Some (TaskFailed e))).
Proof.
  unfold syncHubSpotDealsTask_run. destruct (truthy token) eqn:Ht;
    cbn -[Math_round num_div_const num_sub of_Z Z.div Z.mul Z.add Z.sub syncHubSpotDeals].
  - split; [discriminate|]. intros _.
    destruct (syncHubSpotDeals token w) as [[[]|e] st];
      cbn -[Math_round num_div_const num_sub of_Z Z.div Z.mul Z.add Z.sub].
    + repeat split; [|discriminate].
      intros _. exists ((2 * (after - before) + 1000) / 2000)%Z.
      split; [rewrite round_seconds; reflexivity|].
      pose proof (Z.div_mod (2 * (after - before) + 1000) 2000 ltac:(lia)).
      pose proof (Z.mod_pos_bound (2 * (after - before) + 1000) 2000 ltac:(lia)). lia.
    + repeat split; [discriminate|]. intros e' [= <-]. reflexivity.
  - split; [auto|discriminate].
Qed.

(** ** The workflow trigger *)

Module WorkflowTriggerFacts.
Import WorkflowTrigger.

(** A substring of a string is a substring of what the string starts. *)
Lemma prefix_app (t a b : string) :
  String.prefix t a = true → String.prefix t (a +:+ b) = true.
Proof.
  revert a. induction t as [|c t IH]; intros a H.
  - destruct (a +:+ b); reflexivity.
  - apply prefix_cons in H as (a' & -> & H).
    change (String c a' +:+ b) with (String c (a' +:+ b)). simpl.
    destruct (ascii_dec c c); [auto|contradiction].
Qed.

Lemma includes_app_l (a b t : string) :
  includes a t = true → includes (a +:+ b) t = true.
Proof.
  induction a as [|c a IH].
  - cbn [includes]. rewrite orb_false_r. intros H.
    apply includes_prefix. apply (prefix_app t "" b H).
  - cbn [includes]. intros H. apply orb_prop in H as [H|H].
    + apply includes_prefix. apply prefix_app, H.
    + change (String c a +:+ b) with (String c (a +:+ b)). cbn [includes].
      rewrite (IH H). apply orb_true_r.
Qed.

Lemma timeout_message_timed_out (env : Env) (n : number) :
  includes (timeout_message env n) "timed out" = true.
Proof. unfold timeout_message. apply includes_app_l. reflexivity. Qed.


(** X18: the response has status [timeout] exactly when the handler waits
    for a workflow it has started and either the timer wins the race (the
    workflow never settles, or settles too late) or the workflow itself
    fails with a message that contains "timed out". *)
Theorem timeout_is_read_off_the_message (p : WorkflowTriggerParams) (env : Env) :
  Response.status (handler p env).1 = timeout
  ↔ truthy (HUBSPOT_TOKEN env) = true
    ∧ default "hubspotDataSync" (workflowName p) = "hubspotDataSync"
    ∧ default false (waitForCompletion p) = true
    ∧ ∃ promise, execute env "hubspotDataSync" = inr promise
        ∧ (promise = Pending
           ∨ timer_first env = true
           ∨ ∃ m, promise = Rejected (ErrorObject m) ∧ includes m "timed out" = true).
Proof.
  unfold handler. destruct (truthy (HUBSPOT_TOKEN env)); simpl;
    [|split; [discriminate|intros ([=] & _)]].
  destruct (String.eqb_spec (default "hubspotDataSync" (workflowName p)) "hubspotDataSync")
    as [->|Hn]; simpl; [|split; [discriminate|intros (_ & H & _); contradiction]].
  destruct (execute env "hubspotDataSync") as [e|promise]; simpl;
    [split; [discriminate|intros (_ & _ & _ & pr & [=] & _)]|].
  destruct (default false (waitForCompletion p)); simpl;
    [|split; [discriminate|intros (_ & _ & [=] & _)]].
  assert (T := timeout_message_timed_out env (default (of_nat 300) (timeoutSeconds p))).
  unfold race. destruct promise as [st body|e|]; [destruct (timer_first env)|destruct (timer_first env)|];
    simpl; rewrite ?T; simpl.
  - split; [eauto 10|reflexivity].
  - split; [discriminate|]. intros (_ & _ & _ & pr & [= <-] & [H|[H|(m & H & _)]]); discriminate.
  - split; [eauto 10|reflexivity].
  - destruct e as [m|]; [destruct (includes m "timed out") eqn:Em|]; simpl.
    + split; [eauto 12|reflexivity].
    + split; [discriminate|].
      intros (_ & _ & _ & pr & [= <-] & [H|[H|(m' & [= <-] & H)]]); congruence.
    + split; [discriminate|].
      intros (_ & _ & _ & pr & [= <-] & [H|[H|(m' & H & _)]]); discriminate.
  - split; [eauto 10|reflexivity].
Qed.

(** X19: in every response [success] is true exactly for the statuses
    [started] and [completed], [error] is missing exactly when [success]
    is true, [endTime] and [duration] are missing exactly for [started],
    and the start time and the workflow name are the ones of the
    request. *)
Theorem response_fields_agree_with_the_status (p : WorkflowTriggerParams) (env : Env) :
  let r := (handler p env).1 in
  (Response.success r = true ↔ Response.status r = started ∨ Response.status r = completed)
  ∧ (Response.error r = None ↔ Response.success r = true)
  ∧ (Response.endTime r = None ↔ Response.status r = started)
  ∧ (Response.duration r = None ↔ Response.status r = started)
  ∧ Response.startTime r = isoStart env
  ∧ Response.workflowName r = default "hubspotDataSync" (workflowName p).
Proof.
  unfold handler. destruct (truthy (HUBSPOT_TOKEN env)); simpl.
  2: { repeat split; try discriminate; intros [H|H]; discriminate. }
  destruct (String.eqb _ "hubspotDataSync"); simpl.
  2: { repeat split; try discriminate; intros [H|H]; discriminate. }
  destruct (execute env _) as [e|promise]; simpl.
  { repeat split; try discriminate; intros [H|H]; discriminate. }
  destruct (default false (waitForCompletion p)); simpl.
  2: { repeat split; auto; discriminate. }
  destruct (race env promise _) as [res|[m|]]; [| destruct (includes m "timed out") |]; simpl;
    repeat split; auto; try discriminate; intros [H|H]; discriminate.
Qed.

(** X20: [client.workflow.execute] is called at most once, only with
    "hubspotDataSync", and not at all exactly when the token is missing or
    another workflow is asked for. *)
Theorem workflow_is_executed_at_most_once (p : WorkflowTriggerParams) (env : Env) :
  ((handler p env).2 = [] ∨ (handler p env).2 = ["hubspotDataSync"])
  ∧ ((handler p env).2 = []
     ↔ truthy (HUBSPOT_TOKEN env) = false
       ∨ default "hubspotDataSync" (workflowName p) ≠ "hubspotDataSync").
Proof.
  unfold handler. destruct (truthy (HUBSPOT_TOKEN env)); simpl; [|split; auto; tauto].
  destruct (String.eqb_spec (default "hubspotDataSync" (workflowName p)) "hubspotDataSync")
    as [->|Hn]; simpl; [|split; auto; tauto].
  destruct (execute env "hubspotDataSync") as [e|promise];
    [|destruct (default false (waitForCompletion p));
      [destruct (race env promise _) as [res|[m|]];
        [| destruct (includes m "timed out") |]|]];
    simpl; (split; [auto|split; [discriminate|intros [H'|H']; congruence]]).
Qed.

(** [force] is never consulted: two requests that differ only in
    [force] get the same response and cause the same calls. *)
Remark force_is_ignored (workflowName : option string) (force force' : option bool)
    (waitForCompletion : option bool) (timeoutSeconds : option number) (env : Env) :
  handler {| WorkflowTrigger.workflowName := workflowName; WorkflowTrigger.force := force;
             WorkflowTrigger.waitForCompletion := waitForCompletion;
             WorkflowTrigger.timeoutSeconds := timeoutSeconds |} env
  = handler {| WorkflowTrigger.workflowName := workflowName; WorkflowTrigger.force := force';
               WorkflowTrigger.waitForCompletion := waitForCompletion;
               WorkflowTrigger.timeoutSeconds := timeoutSeconds |} env.
Proof. reflexivity. Qed.

(** X21: the response has status [started] exactly when the token is
    there, the workflow is "hubspotDataSync", [execute] returns a promise
    and the request does not wait; how and whether that promise settles
    plays no part. *)
Theorem started_without_waiting (p : WorkflowTriggerParams) (env : Env) :
  Response.status (handler p env).1 = started
  ↔ truthy (HUBSPOT_TOKEN env) = true
    ∧ default "hubspotDataSync" (workflowName p) = "hubspotDataSync"
    ∧ default false (waitForCompletion p) = false
    ∧ ∃ promise, execute env "hubspotDataSync" = inr promise.
Proof.
  unfold handler. destruct (truthy (HUBSPOT_TOKEN env)); simpl;
    [|split; [discriminate|intros ([=] & _)]].
  destruct (String.eqb_spec (default "hubspotDataSync" (workflowName p)) "hubspotDataSync")
    as [->|Hn]; simpl; [|split; [discriminate|intros (_ & H & _); contradiction]].
  destruct (execute env "hubspotDataSync") as [e|promise]; simpl;
    [split; [discriminate|intros (_ & _ & _ & pr & [=])]|].
  destruct (default false (waitForCompletion p)); simpl.
  - destruct (race env promise _) as [res|[m|]]; [| destruct (includes m "timed out") |];
      simpl; (split; [discriminate|intros (_ & _ & [=] & _)]).
  - split; [eauto|reflexivity].
Qed.

End WorkflowTriggerFacts.
